(** * A shallow embedding of the software renderer

    The development follows the two source files of the repository:
    [objreader.py] (the mesh reader) and [renderer.py] (scene state,
    per-vertex transform, painter's algorithm, shading, frame pacing and
    input handling).

    Numbers.  Python [int]s are [Z].  The depth sorter and the frame
    controller add, subtract, divide and compare their floats and do
    nothing else with them: they are embedded on IEEE 754 doubles, the
    primitive floats (module [binary64]), and the statements about the
    order of the sort and about the frame-rate window are made there.
    [math.sin], [math.cos] and [math.acos] have no counterpart on
    doubles here; the transform and the shader are written over the
    real numbers [R], and module [renderer] as a whole is, with the
    frame timer of its event loop over the rationals [Q].  What is
    stated on [renderer] either names the operations of the code or
    does not depend on rounding: the steps of the transform, exact
    inputs, which exception a frame raises, what the handlers assign.

    Exceptions.  A Python exception is a value [Raise e] of the type
    [result]; the statements of a function body are chained with the
    bind of that monad, in the order the source evaluates them. *)

From Stdlib Require Import Reals ZArith QArith List String Ascii Bool.
From Stdlib Require Import Lia Lqa Lra Permutation Sorted.
From Stdlib Require Floats.
Import ListNotations.

Set Implicit Arguments.
Set Warnings "-inexact-float".

(* ------------------------------------------------------------------ *)
(** ** Python prelude *)

Inductive pyerr : Set :=
| ValueError
| IndexError
| TypeError
| ZeroDivisionError
| IOError.

Inductive result (A : Type) : Type :=
| Ok (a : A)
| Raise (e : pyerr).

Arguments Ok {A} a.
Arguments Raise {A} e.

Definition bind {A B : Type} (m : result A) (k : A -> result B) : result B :=
  match m with
  | Ok a => k a
  | Raise e => Raise e
  end.

Declare Scope py_scope.
Delimit Scope py_scope with py.
Notation "x <- m ;; k" := (bind m (fun x => k))
  (at level 61, m at next level, right associativity) : py_scope.
Notation "' p <- m ;; k" := (bind m (fun x => let p := x in k))
  (at level 61, p pattern, m at next level, right associativity) : py_scope.
Open Scope py_scope.

(** A list comprehension [[f(x) for x in l]]: the elements are evaluated
    from left to right and the first exception ends the comprehension. *)
Fixpoint comprehension {A B : Type} (f : A -> result B) (l : list A)
  : result (list B) :=
  match l with
  | [] => Ok []
  | x :: l' => y <- f x ;; ys <- comprehension f l' ;; Ok (y :: ys)
  end.

(** [l[i]] for a Python list or tuple: a negative index counts from the
    end, anything outside [-len, len) raises [IndexError]. *)
Definition py_index {A : Type} (l : list A) (i : Z) : result A :=
  let n := Z.of_nat (List.length l) in
  let j := (if i <? 0 then i + n else i)%Z in
  if ((0 <=? j) && (j <? n))%Z
  then match nth_error l (Z.to_nat j) with
       | Some a => Ok a
       | None => Raise IndexError
       end
  else Raise IndexError.

(** [sum(l)] over floats, starting from [0] and adding left to right. *)
Definition py_sum (l : list R) : R := fold_left Rplus l 0%R.

(** The characters [str.split()] treats as separators. *)
Definition is_space (c : ascii) : bool :=
  match nat_of_ascii c with
  | 9%nat | 10%nat | 11%nat | 12%nat | 13%nat | 32%nat => true
  | _ => false
  end.

(** [s.split()]: the maximal runs of non-blank characters of [s]. *)
Fixpoint split_from (word : string) (s : string) : list string :=
  match s with
  | EmptyString => match word with EmptyString => [] | _ => [word] end
  | String c s' =>
      if is_space c
      then match word with
           | EmptyString => split_from EmptyString s'
           | _ => word :: split_from EmptyString s'
           end
      else split_from (word ++ String c EmptyString) s'
  end.

Definition split (s : string) : list string := split_from EmptyString s.

(** [x.split("/")[0]]: what precedes the first slash of [x]. *)
Fixpoint before_slash (s : string) : string :=
  match s with
  | EmptyString => EmptyString
  | String c s' =>
      if Ascii.eqb c "/"%char then EmptyString else String c (before_slash s')
  end.

Definition startswith (p s : string) : bool := String.prefix p s.

(** The conversions [float(s)] and [int(s)] of the interpreter are not
    code of this repository; they are taken as an interface.  [None]
    stands for the [ValueError] both raise on a malformed literal. *)
Class Builtins : Type := {
  py_float : string -> option R;
  py_int : string -> option Z
}.

Definition float_ `{Builtins} (s : string) : result R :=
  match py_float s with Some r => Ok r | None => Raise ValueError end.

Definition int_ `{Builtins} (s : string) : result Z :=
  match py_int s with Some z => Ok z | None => Raise ValueError end.

(** [sorted(l, key=key, reverse=reverse)].  As in the interpreter, the
    keys are computed first (an exception of [key] leaves no result);
    the sort is stable and compares keys with [<] only; with
    [reverse=True] the list is reversed, sorted and reversed again, which
    keeps the original order of elements with equal keys. *)
Section Sorting.
Variables (A K : Type) (lt : K -> K -> bool).

Fixpoint insert_keyed (x : K * A) (l : list (K * A)) : list (K * A) :=
  match l with
  | [] => [x]
  | y :: l' =>
      if lt (fst y) (fst x) then y :: insert_keyed x l' else x :: y :: l'
  end.

(** [x] may stand before [y] in ascending order of the keys. *)
Definition ascending (x y : K * A) : Prop := lt (fst y) (fst x) = false.

Definition sort_keyed (l : list (K * A)) : list (K * A) :=
  fold_right insert_keyed [] l.

Definition sort_with (reverse : bool) (l : list (K * A)) : list (K * A) :=
  if reverse then rev (sort_keyed (rev l)) else sort_keyed l.

Definition sorted (key : A -> result K) (reverse : bool) (l : list A)
  : result (list A) :=
  keys <- comprehension key l ;;
  Ok (map snd (sort_with reverse (combine keys l))).
End Sorting.

Definition Rltb (x y : R) : bool := if Rlt_dec x y then true else false.

(* ------------------------------------------------------------------ *)
(** ** objreader.py *)

Module objreader.

Definition vertex : Type := list R.
Definition facet : Type := list Z.
Definition edge : Type := (Z * Z)%type.

Section Reader.
Context `{Builtins}.

Definition parse_vertex (line : string) (vertices : list vertex)
  : result (list vertex) :=
  vertex <- comprehension float_ (tl (split line)) ;;
  Ok (vertices ++ [vertex]).

Definition parse_facet (line : string) (facets : list facet)
  : result (list facet) :=
  facet <- comprehension
             (fun x => i <- int_ (before_slash x) ;; Ok (i - 1)%Z)
             (tl (split line)) ;;
  Ok (facets ++ [facet]).
End Reader.

(** [sorted([a, b])], a two-element list kept as a pair. *)
Definition sorted2 (a b : Z) : edge := if (b <? a)%Z then (b, a) else (a, b).

Definition edge_eqb (e1 e2 : edge) : bool :=
  ((fst e1 =? fst e2) && (snd e1 =? snd e2))%Z.

(** [edge in edges] *)
Definition edge_in (e : edge) (edges : list edge) : bool :=
  existsb (edge_eqb e) edges.

(** [if edge not in edges: edges.append(edge)] *)
Definition append_new (edges : list edge) (e : edge) : list edge :=
  if edge_in e edges then edges else edges ++ [e].

(** One iteration of the loop of [convert_facets_to_edges]. *)
Definition facet_edges (edges : list edge) (facet : facet)
  : result (list edge) :=
  f0 <- py_index facet 0 ;;
  f1 <- py_index facet 1 ;;
  let edge1 := sorted2 f0 f1 in
  f1' <- py_index facet 1 ;;
  f2 <- py_index facet 2 ;;
  let edge2 := sorted2 f1' f2 in
  f0' <- py_index facet 0 ;;
  f2' <- py_index facet 2 ;;
  let edge3 := sorted2 f0' f2' in
  Ok (append_new (append_new (append_new edges edge1) edge2) edge3).

Fixpoint edges_loop (facets : list facet) (edges : list edge)
  : result (list edge) :=
  match facets with
  | [] => Ok edges
  | facet :: rest => edges' <- facet_edges edges facet ;; edges_loop rest edges'
  end.

Definition convert_facets_to_edges (facets : list facet)
  : result (list edge) :=
  edges_loop facets [].

Section Read.
Context `{Builtins}.

(** The loop of [read] over the lines of the file. *)
Fixpoint read_lines (lines : list string)
         (vertices : list vertex) (facets : list facet)
  : result (list vertex * list facet) :=
  match lines with
  | [] => Ok (vertices, facets)
  | line :: rest =>
      if startswith "v " line then
        vertices' <- parse_vertex line vertices ;;
        read_lines rest vertices' facets
      else if startswith "f " line then
        facets' <- parse_facet line facets ;;
        read_lines rest vertices facets'
      else read_lines rest vertices facets
  end.

(** [read(filename)]; [open] raises [IOError] when the file is
    missing, otherwise [readlines()] gives its lines. *)
Definition read (file : option (list string))
  : result (list vertex * list facet * list edge) :=
  match file with
  | None => Raise IOError
  | Some lines =>
      '(vertices, facets) <- read_lines lines [] [] ;;
      edges <- convert_facets_to_edges facets ;;
      Ok (vertices, facets, edges)
  end.
End Read.

End objreader.

(* ------------------------------------------------------------------ *)
(** ** renderer.py *)

Module renderer.

Definition WIDTH : Z := 800.
Definition HEIGHT : Z := 600.
Definition TARGET_FRAME_TIME : Q := 1 # 60.
Definition FRAME_RATE_REFRESH : Z := 1.

(** The module-level counters the frame controller updates. *)
Record Globals : Type := {
  FPS : Z;
  TOTAL_TIME : Q;
  FRAME_RATE_TIME : Q;
  FRAME_RATE_COUNT : Z
}.

Definition globals0 : Globals :=
  {| FPS := 60; TOTAL_TIME := 0; FRAME_RATE_TIME := 0;
     FRAME_RATE_COUNT := 0 |}.

Definition rgb : Type := (Z * Z * Z)%type.
Definition point : Type := (Z * Z)%type.
Definition vertex : Type := list R.

(** A facet is a Python sequence: vertex indices, and after
    [colorize_facets] a colour tuple appended behind them. *)
Inductive item : Type :=
| Idx (i : Z)
| Colour (c : rgb).

Definition facet : Type := list item.

Record Scene : Type := {
  width : Z;
  height : Z;
  centre_x : Z;
  centre_y : Z;
  camera_position : Z * Z * Z;
  camera_rotation : R * R * R;
  camera_distortion : Z;
  light_source : R * R * R;
  rotating : bool;
  point_colour : rgb;
  line_colour : rgb;
  facet_colour : rgb;
  filled : bool;
  vertices : list vertex;
  facets : list facet;
  edges : list (Z * Z)
}.

Definition tuple3 (x y z : Z) : vertex := [IZR x; IZR y; IZR z].
Definition triangle (a b c : Z) : facet := [Idx a; Idx b; Idx c].

(** [Scene.__init__(surface, width, height)]; the drawing surface and
    the font are handles of the canvas and carry no scene data. *)
Definition Scene_init (width height : Z) : Scene :=
  {| width := width;
     height := height;
     centre_x := width / 2;
     centre_y := height / 2;
     camera_position := (0, 0, -10)%Z;
     camera_rotation := (0, 0, 0)%R;
     camera_distortion := 512;
     light_source := (7 / 10, 7 / 10, - (7 / 10))%R;
     rotating := false;
     point_colour := (0, 0, 0)%Z;
     line_colour := (50, 50, 50)%Z;
     facet_colour := (100, 255, 100)%Z;
     filled := false;
     vertices := [tuple3 (-1) (-1) 1; tuple3 (-1) 1 1;
                  tuple3 1 1 1; tuple3 1 (-1) 1;
                  tuple3 (-1) (-1) (-1); tuple3 (-1) 1 (-1);
                  tuple3 1 1 (-1); tuple3 1 (-1) (-1)];
     facets := [triangle 0 1 2; triangle 2 3 0; triangle 1 5 6;
                triangle 6 2 1; triangle 5 4 7; triangle 7 6 5;
                triangle 4 0 3; triangle 3 7 4; triangle 3 2 6;
                triangle 6 7 3; triangle 0 5 1; triangle 0 4 5];
     edges := [(0, 1); (1, 2); (2, 3); (3, 0);
               (4, 5); (5, 6); (6, 7); (7, 4);
               (0, 4); (1, 5); (2, 6); (3, 7)]%Z |}.

(** Assignments to the attributes of a scene. *)
Definition set_camera_position (s : Scene) (p : Z * Z * Z) : Scene :=
  {| width := width s; height := height s;
     centre_x := centre_x s; centre_y := centre_y s;
     camera_position := p;
     camera_rotation := camera_rotation s;
     camera_distortion := camera_distortion s;
     light_source := light_source s; rotating := rotating s;
     point_colour := point_colour s; line_colour := line_colour s;
     facet_colour := facet_colour s; filled := filled s;
     vertices := vertices s; facets := facets s; edges := edges s |}.

Definition set_camera_rotation (s : Scene) (r : R * R * R) : Scene :=
  {| width := width s; height := height s;
     centre_x := centre_x s; centre_y := centre_y s;
     camera_position := camera_position s;
     camera_rotation := r;
     camera_distortion := camera_distortion s;
     light_source := light_source s; rotating := rotating s;
     point_colour := point_colour s; line_colour := line_colour s;
     facet_colour := facet_colour s; filled := filled s;
     vertices := vertices s; facets := facets s; edges := edges s |}.

Definition set_rotating (s : Scene) (b : bool) : Scene :=
  {| width := width s; height := height s;
     centre_x := centre_x s; centre_y := centre_y s;
     camera_position := camera_position s;
     camera_rotation := camera_rotation s;
     camera_distortion := camera_distortion s;
     light_source := light_source s; rotating := b;
     point_colour := point_colour s; line_colour := line_colour s;
     facet_colour := facet_colour s; filled := filled s;
     vertices := vertices s; facets := facets s; edges := edges s |}.

Definition set_filled (s : Scene) (b : bool) : Scene :=
  {| width := width s; height := height s;
     centre_x := centre_x s; centre_y := centre_y s;
     camera_position := camera_position s;
     camera_rotation := camera_rotation s;
     camera_distortion := camera_distortion s;
     light_source := light_source s; rotating := rotating s;
     point_colour := point_colour s; line_colour := line_colour s;
     facet_colour := facet_colour s; filled := b;
     vertices := vertices s; facets := facets s; edges := edges s |}.

(** [Scene.load_model] *)
Definition load_model (s : Scene) (vertices : list vertex)
           (facets : list facet) (edges : list (Z * Z)) : Scene :=
  {| width := width s; height := height s;
     centre_x := centre_x s; centre_y := centre_y s;
     camera_position := camera_position s;
     camera_rotation := camera_rotation s;
     camera_distortion := camera_distortion s;
     light_source := light_source s; rotating := rotating s;
     point_colour := point_colour s; line_colour := line_colour s;
     facet_colour := facet_colour s; filled := filled s;
     vertices := vertices; facets := facets; edges := edges |}.

(** *** The per-vertex transform of [render_model] *)

(** [int(x)] on a float: truncation towards zero. *)
Definition int_of_float (x : R) : Z :=
  if Rle_dec 0 x then Zfloor x else Zceil x.

(** Lines 172-174: the step driven by [camera_rotation[0]]. *)
Definition rotate_0 (r : R) (p : R * R * R) : R * R * R :=
  let '(x, y, z) := p in
  let tmp := z in
  let z := ((- x) * sin r - z * cos r)%R in
  let x := ((- x) * cos r + tmp * sin r)%R in
  (x, y, z).

(** Lines 176-178: the step driven by [camera_rotation[1]]. *)
Definition rotate_1 (r : R) (p : R * R * R) : R * R * R :=
  let '(x, y, z) := p in
  let tmp := z in
  let z := ((- y) * sin r + z * cos r)%R in
  let y := (y * cos r + tmp * sin r)%R in
  (x, y, z).

(** Lines 180-182: the step driven by [camera_rotation[2]]. *)
Definition rotate_2 (r : R) (p : R * R * R) : R * R * R :=
  let '(x, y, z) := p in
  let tmp := x in
  let x := (x * cos r - y * sin r)%R in
  let y := (y * cos r + tmp * sin r)%R in
  (x, y, z).

Definition rotate (s : Scene) (p : R * R * R) : R * R * R :=
  let '(r0, r1, r2) := camera_rotation s in
  rotate_2 r2 (rotate_1 r1 (rotate_0 r0 p)).

(** Lines 184-186 *)
Definition translate (s : Scene) (p : R * R * R) : R * R * R :=
  let '(x, y, z) := p in
  let '(cx, cy, cz) := camera_position s in
  ((x - IZR cx)%R, (y - IZR cy)%R, (z - IZR cz)%R).

(** Lines 189-190 *)
Definition EPSILON : R := (1 / 100000)%R.

Definition guard_depth (z : R) : R :=
  if Req_dec_T z 0 then EPSILON else z.

(** Lines 193-203 *)
Definition project (s : Scene) (p : R * R * R) : point * R :=
  let '(x, y, z) := p in
  let z := guard_depth z in
  let screen_x := (IZR (camera_distortion s) * x / z)%R in
  let screen_y := (IZR (camera_distortion s) * y / z)%R in
  let screen_x := (screen_x + IZR (centre_x s))%R in
  let screen_y := (screen_y + IZR (centre_y s))%R in
  ((int_of_float screen_x, int_of_float screen_y), z).

(** The body of the loop over the vertices, lines 168-203. *)
Definition transform (s : Scene) (v : vertex) : result (point * R) :=
  x <- py_index v 0 ;;
  y <- py_index v 1 ;;
  z <- py_index v 2 ;;
  Ok (project s (translate s (rotate s (x, y, z)))).

(** *** [Scene.painters_algorithm] *)

Definition depth_at (depths : list R) (x : item) : result R :=
  match x with
  | Idx i => py_index depths i
  | Colour _ => Raise TypeError
  end.

Definition avg_depth (depths : list R) (facet : facet) : result R :=
  ds <- comprehension (depth_at depths) (firstn 3 facet) ;;
  Ok (py_sum ds / 3)%R.

Definition painters_algorithm (depths : list R) (facets : list facet)
  : result (list facet) :=
  sorted Rltb (avg_depth depths) true facets.

(** *** [Scene.gouraud_shading] *)

Definition sub3 (b a : vertex) : result (R * R * R) :=
  b0 <- py_index b 0 ;; a0 <- py_index a 0 ;;
  b1 <- py_index b 1 ;; a1 <- py_index a 1 ;;
  b2 <- py_index b 2 ;; a2 <- py_index a 2 ;;
  Ok ((b0 - a0)%R, (b1 - a1)%R, (b2 - a2)%R).

Definition length3 (v : R * R * R) : R :=
  let '(x, y, z) := v in sqrt (py_sum [x ^ 2; y ^ 2; z ^ 2])%R.

(** [x / d] on floats raises on a zero divisor. *)
Definition py_div (x d : R) : result R :=
  if Req_dec_T d 0 then Raise ZeroDivisionError else Ok (x / d)%R.

Definition normalize (v : R * R * R) (len : R) : result (R * R * R) :=
  let '(x, y, z) := v in
  x' <- py_div x len ;; y' <- py_div y len ;; z' <- py_div z len ;;
  Ok (x', y', z').

Definition cross (u v : R * R * R) : R * R * R :=
  let '(u0, u1, u2) := u in
  let '(v0, v1, v2) := v in
  ((u1 * v2 - u2 * v1)%R, (u2 * v0 - u0 * v2)%R, (u0 * v1 - u1 * v0)%R).

Definition dot (l n : R * R * R) : R :=
  let '(l0, l1, l2) := l in
  let '(n0, n1, n2) := n in
  (l0 * n0 + l1 * n1 + l2 * n2)%R.

(** Lines 269-272 *)
Definition clamp (angle : R) : R :=
  if Rgt_dec angle 1 then 1%R
  else if Rlt_dec angle (-1) then (-1)%R
  else angle.

(** Lines 277-279; [math.floor] gives an integral float. *)
Definition shade (colour : rgb) (angle : R) : rgb :=
  let '(c0, c1, c2) := colour in
  (Zfloor (IZR c0 * angle), Zfloor (IZR c1 * angle),
   Zfloor (IZR c2 * angle)).

Definition gouraud_shading (s : Scene) (a b c : vertex) (colour : rgb)
  : result rgb :=
  vector_ab <- sub3 b a ;;
  vector_ac <- sub3 c a ;;
  let length_ab := length3 vector_ab in
  let length_ac := length3 vector_ac in
  vector_ab <- normalize vector_ab length_ab ;;
  vector_ac <- normalize vector_ac length_ac ;;
  let surface_normal := cross vector_ab vector_ac in
  let angle := dot (light_source s) surface_normal in
  let angle := clamp angle in
  let angle := (acos angle / PI)%R in
  Ok (shade colour angle).

(** *** [Scene.render_model] *)

(** A call of [pygame.draw.polygon(surface, colour, points, width)]. *)
Inductive draw : Type :=
| polygon (colour : rgb) (points : list point) (line_width : Z).

Definition render_triangle (s : Scene) (p1 p2 p3 : point) : draw :=
  polygon (line_colour s) [p1; p2; p3] 1.

Definition render_fill_triangle (p1 p2 p3 : point) (colour : rgb) : draw :=
  polygon colour [p1; p2; p3] 0.

(** [l[facet[k]]]: the entry of the facet has to be an integer. *)
Definition at_facet {A : Type} (l : list A) (facet : facet) (k : Z)
  : result A :=
  x <- py_index facet k ;;
  match x with
  | Idx i => py_index l i
  | Colour _ => Raise TypeError
  end.

(** Lines 212-222, one round of the loop of the filled branch. *)
Definition draw_filled (s : Scene) (point_list : list point) (f : facet)
  : result draw :=
  point1 <- at_facet point_list f 0 ;;
  point2 <- at_facet point_list f 1 ;;
  point3 <- at_facet point_list f 2 ;;
  a <- at_facet (vertices s) f 0 ;;
  b <- at_facet (vertices s) f 1 ;;
  c <- at_facet (vertices s) f 2 ;;
  colour <- gouraud_shading s a b c (facet_colour s) ;;
  Ok (render_fill_triangle point1 point2 point3 colour).

(** Lines 226-231, one round of the loop of the wireframe branch. *)
Definition draw_outline (s : Scene) (point_list : list point) (f : facet)
  : result draw :=
  point1 <- at_facet point_list f 0 ;;
  point2 <- at_facet point_list f 1 ;;
  point3 <- at_facet point_list f 2 ;;
  Ok (render_triangle s point1 point2 point3).

Definition ROTATION_STEP : R := (2 / 100)%R.

(** Lines 155-158 *)
Definition auto_rotate (s : Scene) : Scene :=
  if rotating s then
    let '(r0, r1, r2) := camera_rotation s in
    set_camera_rotation s
      ((r0 + ROTATION_STEP)%R, (r1 + ROTATION_STEP)%R,
       (r2 + ROTATION_STEP)%R)
  else s.

(** The scene is returned as the call leaves it, also when an
    exception ends the call. *)
Definition render_model (s : Scene) : Scene * result (list draw) :=
  let s := auto_rotate s in
  (s,
   projected <- comprehension (transform s) (vertices s) ;;
   let point_list := map fst projected in
   let depth_list := map snd projected in
   if filled s then
     ordered_facets <- painters_algorithm depth_list (facets s) ;;
     comprehension (draw_filled s point_list) ordered_facets
   else
     comprehension (draw_outline s point_list) (facets s)).

(** *** [render_loop] *)

Definition Qltb (x y : Q) : bool := negb (Qle_bool y x).

(** Lines 339-346: the window counter and the refresh of [FPS]. *)
Definition refresh_frame_rate (g : Globals) (cycle_time : Q) : Globals :=
  let frame_rate_time := (FRAME_RATE_TIME g + cycle_time)%Q in
  if Qle_bool (inject_Z FRAME_RATE_REFRESH) frame_rate_time then
    {| FPS := (FRAME_RATE_COUNT g / FRAME_RATE_REFRESH)%Z;
       TOTAL_TIME := TOTAL_TIME g;
       FRAME_RATE_TIME := 0;
       FRAME_RATE_COUNT := 0 |}
  else
    {| FPS := FPS g;
       TOTAL_TIME := TOTAL_TIME g;
       FRAME_RATE_TIME := frame_rate_time;
       FRAME_RATE_COUNT := FRAME_RATE_COUNT g |}.

(** Lines 348-350 *)
Definition count_frame (g : Globals) (cycle_time : Q) : Globals :=
  {| FPS := FPS g;
     TOTAL_TIME := (TOTAL_TIME g + cycle_time)%Q;
     FRAME_RATE_TIME := FRAME_RATE_TIME g;
     FRAME_RATE_COUNT := (FRAME_RATE_COUNT g + 1)%Z |}.

(** Lines 329-334 *)
Definition sleep_for (time_elapsed : Q) : Q :=
  let sleep_time := (TARGET_FRAME_TIME - time_elapsed)%Q in
  if Qltb sleep_time 0 then 0%Q else sleep_time.

(** Lines 328-351, given the measured [time_elapsed] of the frame;
    the second component is the time slept. *)
Definition pace (g : Globals) (time_elapsed : Q) : Globals * Q :=
  let sleep_time := sleep_for time_elapsed in
  let cycle_time := (time_elapsed + sleep_time)%Q in
  let g := refresh_frame_rate g cycle_time in
  let g := count_frame g cycle_time in
  (g, sleep_time).

(** [render_loop(scene)]: the background and the frame-rate text of
    [render_scene] only draw; [render_model] is the part that reads
    and writes the scene. *)
Definition render_loop (st : Scene * Globals) (time_elapsed : Q)
  : (Scene * Globals) * result (list draw) :=
  let '(s, g) := st in
  match render_model s with
  | (s', Raise e) => ((s', g), Raise e)
  | (s', Ok drawn) => ((s', fst (pace g time_elapsed)), Ok drawn)
  end.

(** *** Input handlers *)

Definition K_b : Z := 98.
Definition K_f : Z := 102.
Definition K_r : Z := 114.

Inductive event : Type :=
| QUIT
| KEYDOWN (key : Z)
| MOUSEBUTTONDOWN (button : Z)
| MOUSEMOTION (left : bool) (rel_left : Z * Z)
              (right : bool) (rel_right : Z * Z)
| OTHER.

Definition handle_mouse_event (button : Z) (s : Scene) : Scene :=
  let s :=
    if (button =? 4)%Z then
      let '(x, y, z) := camera_position s in
      if (z <? 0)%Z then set_camera_position s (x, y, (z + 1)%Z) else s
    else s in
  if (button =? 5)%Z then
    let '(x, y, z) := camera_position s in
    set_camera_position s (x, y, (z - 1)%Z)
  else s.

Definition handle_key_event (key : Z) (s : Scene) : Scene :=
  let s := if (key =? K_r)%Z then set_rotating s (negb (rotating s)) else s in
  let s := if (key =? K_f)%Z then set_filled s (negb (filled s)) else s in
  if (key =? K_b)%Z then
    let '(x, y, _) := camera_position s in
    let s := set_camera_position s (x, y, (-10)%Z) in
    set_camera_rotation s (0, 0, 0)%R
  else s.

(** [pygame.mouse.get_pressed()] and the two calls of
    [pygame.mouse.get_rel()] are inputs of the handler. *)
Definition handle_mouse_motion (left : bool) (rel_left : Z * Z)
           (right : bool) (rel_right : Z * Z) (s : Scene) : Scene :=
  let s :=
    if left then
      let '(r0, r1, r2) := camera_rotation s in
      set_camera_rotation s
        ((r0 + IZR (fst rel_left) * ROTATION_STEP)%R,
         (r1 + IZR (snd rel_left) * ROTATION_STEP)%R, r2)
    else s in
  if right then
    let '(r0, r1, r2) := camera_rotation s in
    set_camera_rotation s
      (r0, r1, (r2 + IZR (fst rel_right) * ROTATION_STEP)%R)
  else s.

(** *** [colorize_facets] and [main] *)

(** The successive results of [random.randrange(256)] are read from
    [rnd]. *)
Fixpoint colorize_from (rnd : nat -> Z) (n : nat)
         (facets : list objreader.facet) : list facet :=
  match facets with
  | [] => []
  | f :: rest =>
      (map Idx f ++ [Colour (rnd n, rnd (S n), rnd (S (S n)))])
        :: colorize_from rnd (3 + n) rest
  end.

Definition colorize_facets (rnd : nat -> Z) (facets : list objreader.facet)
  : list facet :=
  colorize_from rnd 0 facets.

(** Lines 420-426 of [main]: the scene as [main] holds it when the
    loop starts, or when an exception of [objreader.read] ends the
    program. *)
Definition main_setup `{Builtins} (argv : list string)
           (files : string -> option (list string)) (rnd : nat -> Z)
  : Scene * result unit :=
  let scene := Scene_init WIDTH HEIGHT in
  if (List.length argv =? 2)%nat then
    match objreader.read (files (nth 1 argv EmptyString)) with
    | Raise e => (scene, Raise e)
    | Ok (vertices, facets, edges) =>
        let facets := colorize_facets rnd facets in
        (load_model scene vertices facets edges, Ok tt)
    end
  else (scene, Ok tt).

Inductive control : Set := Running | Exited.

(** The dispatch of one event, lines 431-439. *)
Definition handle_event (e : event) (s : Scene) : Scene * control :=
  match e with
  | QUIT => (s, Exited)
  | KEYDOWN key => (handle_key_event key s, Running)
  | MOUSEBUTTONDOWN button => (handle_mouse_event button s, Running)
  | MOUSEMOTION l rl r rr => (handle_mouse_motion l rl r rr s, Running)
  | OTHER => (s, Running)
  end.

Fixpoint handle_events (events : list event) (s : Scene) : Scene * control :=
  match events with
  | [] => (s, Running)
  | e :: rest =>
      match handle_event e s with
      | (s', Exited) => (s', Exited)
      | (s', Running) => handle_events rest s'
      end
  end.

(** The [while True] loop of [main], run over the batches of events
    and the frame times the host supplies. *)
Fixpoint main_loop (inputs : list (list event * Q)) (st : Scene * Globals)
  : (Scene * Globals) * result control :=
  match inputs with
  | [] => (st, Ok Running)
  | (events, time_elapsed) :: rest =>
      match handle_events events (fst st) with
      | (s, Exited) => ((s, snd st), Ok Exited)
      | (s, Running) =>
          match render_loop (s, snd st) time_elapsed with
          | (st', Raise e) => (st', Raise e)
          | (st', Ok _) => main_loop rest st'
          end
      end
  end.

End renderer.

(* ------------------------------------------------------------------ *)
(** ** Double precision

    [Scene.painters_algorithm] and the frame controller of
    [render_loop] add, subtract, divide and compare their floats and do
    nothing else with them.  These are the operations of IEEE 754
    binary64, which the primitive floats provide with rounding,
    infinities and NaN as the interpreter has them.  Both functions are
    embedded here on doubles, line by line as in [renderer] above, and
    the statements on the order of the sort and on the frame-rate
    window are made on this embedding. *)

Module binary64.
Import PrimFloat.
Local Open Scope float_scope.

(** [sum(l)]: the interpreter starts from the int [0], which the first
    addition converts to [0.0], and adds from left to right. *)
Definition py_sum (l : list float) : float := fold_left add l 0.

(** An int in a comparison or an operation with a float is converted
    to the double of the same value (exact below 2^53). *)
Definition float_of_int (n : Z) : float := of_uint63 (Uint63.of_Z n).

(** *** [Scene.painters_algorithm] *)

Definition depth_at (depths : list float) (x : renderer.item)
  : result float :=
  match x with
  | renderer.Idx i => py_index depths i
  | renderer.Colour _ => Raise TypeError
  end.

(** Line 240: [sum([depths[x] for x in facet[:3]]) / 3.0] *)
Definition avg_depth (depths : list float) (facet : renderer.facet)
  : result float :=
  ds <- comprehension (depth_at depths) (firstn 3 facet) ;;
  Ok (py_sum ds / 3).

(** Line 241: the keys are compared with [<] on doubles, which is false
    whenever one of them is NaN.  The insertion sort of [sorted] gives
    the order of the interpreter's merge sort wherever [<] orders the
    keys, that is, when no key is NaN. *)
Definition painters_algorithm (depths : list float)
           (facets : list renderer.facet) : result (list renderer.facet) :=
  sorted ltb (avg_depth depths) true facets.

(** *** [render_loop] *)

(** Lines 14-19 *)
Record Globals : Type := {
  FPS : Z;
  TOTAL_TIME : float;
  FRAME_RATE_TIME : float;
  FRAME_RATE_COUNT : Z
}.

Definition TARGET_FRAME_TIME : float := 1 / 60.
Definition FRAME_RATE_REFRESH : Z := 1.

Definition globals0 : Globals :=
  {| FPS := 60; TOTAL_TIME := 0; FRAME_RATE_TIME := 0;
     FRAME_RATE_COUNT := 0 |}.

(** Lines 339-346: the window counter and the refresh of [FPS];
    [FRAME_RATE_TIME >= FRAME_RATE_REFRESH] compares a float with the
    int 1, and [FRAME_RATE_COUNT / FRAME_RATE_REFRESH] divides ints. *)
Definition refresh_frame_rate (g : Globals) (cycle_time : float) : Globals :=
  let frame_rate_time := FRAME_RATE_TIME g + cycle_time in
  if float_of_int FRAME_RATE_REFRESH <=? frame_rate_time then
    {| FPS := (FRAME_RATE_COUNT g / FRAME_RATE_REFRESH)%Z;
       TOTAL_TIME := TOTAL_TIME g;
       FRAME_RATE_TIME := 0;
       FRAME_RATE_COUNT := 0 |}
  else
    {| FPS := FPS g;
       TOTAL_TIME := TOTAL_TIME g;
       FRAME_RATE_TIME := frame_rate_time;
       FRAME_RATE_COUNT := FRAME_RATE_COUNT g |}.

(** Lines 348-350 *)
Definition count_frame (g : Globals) (cycle_time : float) : Globals :=
  {| FPS := FPS g;
     TOTAL_TIME := TOTAL_TIME g + cycle_time;
     FRAME_RATE_TIME := FRAME_RATE_TIME g;
     FRAME_RATE_COUNT := (FRAME_RATE_COUNT g + 1)%Z |}.

(** Lines 329-334: [sleep_time < 0] compares with the int 0. *)
Definition sleep_for (time_elapsed : float) : float :=
  let sleep_time := TARGET_FRAME_TIME - time_elapsed in
  if sleep_time <? float_of_int 0 then 0 else sleep_time.

(** Lines 328-351, given the measured [time_elapsed] of the frame (the
    difference of two readings of the clock); the second component is
    the time handed to [time.sleep]. *)
Definition pace (g : Globals) (time_elapsed : float) : Globals * float :=
  let sleep_time := sleep_for time_elapsed in
  let cycle_time := time_elapsed + sleep_time in
  let g := refresh_frame_rate g cycle_time in
  let g := count_frame g cycle_time in
  (g, sleep_time).

End binary64.

Unset Implicit Arguments.

(* ------------------------------------------------------------------ *)
(** ** Vocabulary of the specification *)

Module spec.

(** The three undirected vertex pairs of a facet, each sorted
    ascending, in the order the reader generates them. *)
Definition facet_pairs (f : objreader.facet) : list objreader.edge :=
  let f0 := nth 0 f 0%Z in
  let f1 := nth 1 f 0%Z in
  let f2 := nth 2 f 0%Z in
  [objreader.sorted2 f0 f1; objreader.sorted2 f1 f2; objreader.sorted2 f0 f2].

(** First-seen order: every pair is kept where it occurs first and
    dropped wherever it occurs again. *)
Fixpoint first_seen (l : list objreader.edge) : list objreader.edge :=
  match l with
  | [] => []
  | e :: l' =>
      e :: filter (fun e' => negb (objreader.edge_eqb e' e)) (first_seen l')
  end.

(** The facets of the built-in cube, as the reader would hold them. *)
Definition cube_facets : list objreader.facet :=
  [[0; 1; 2]; [2; 3; 0]; [1; 5; 6]; [6; 2; 1];
   [5; 4; 7]; [7; 6; 5]; [4; 0; 3]; [3; 7; 4];
   [3; 2; 6]; [6; 7; 3]; [0; 5; 1]; [0; 4; 5]]%Z.

End spec.

Module camera.
Import renderer.

Definition X (s : Scene) : Z := fst (fst (camera_position s)).
Definition Y (s : Scene) : Z := snd (fst (camera_position s)).
Definition Z_ (s : Scene) : Z := snd (camera_position s).

(** A sequence of wheel notches: button 4 is one notch up, button 5
    one notch down. *)
Definition wheel (buttons : list Z) (s : Scene) : Scene :=
  fold_left (fun s button => handle_mouse_event button s) buttons s.

End camera.

Module rotation.

(** The standard rotations about the coordinate axes: the rotation
    about X maps (y, z) to (y cos r - z sin r, y sin r + z cos r) and
    leaves x fixed, and likewise, cyclically, for Y and Z. *)
Definition about_X (r : R) (p : R * R * R) : R * R * R :=
  let '(x, y, z) := p in
  (x, (y * cos r - z * sin r)%R, (y * sin r + z * cos r)%R).

Definition about_Y (r : R) (p : R * R * R) : R * R * R :=
  let '(x, y, z) := p in
  ((z * sin r + x * cos r)%R, y, (z * cos r - x * sin r)%R).

Definition about_Z (r : R) (p : R * R * R) : R * R * R :=
  let '(x, y, z) := p in
  ((x * cos r - y * sin r)%R, (x * sin r + y * cos r)%R, z).

(** The order the specification names: X, then Y, then Z. *)
Definition XYZ (r : R * R * R) (p : R * R * R) : R * R * R :=
  let '(r0, r1, r2) := r in about_Z r2 (about_Y r1 (about_X r0 p)).

Definition norm2 (p : R * R * R) : R :=
  let '(x, y, z) := p in (x * x + y * y + z * z)%R.

End rotation.

Module shading.

Definition vec (p : R * R * R) : renderer.vertex :=
  let '(x, y, z) := p in [x; y; z].

Definition minus (b a : R * R * R) : R * R * R :=
  let '(b0, b1, b2) := b in
  let '(a0, a1, a2) := a in
  ((b0 - a0)%R, (b1 - a1)%R, (b2 - a2)%R).

(** The Euclidean length of a vector and the vector scaled to length
    one. *)
Definition euclid (v : R * R * R) : R :=
  let '(x, y, z) := v in sqrt (x * x + y * y + z * z)%R.

Definition unit (v : R * R * R) : R * R * R :=
  let '(x, y, z) := v in
  ((x / euclid v)%R, (y / euclid v)%R, (z / euclid v)%R).

(** The dot product of the geometric normal of the facet (a, b, c),
    the cross product of its two normalised edge vectors, with the
    light direction. *)
Definition facing (light a b c : R * R * R) : R :=
  renderer.dot light (renderer.cross (unit (minus b a)) (unit (minus c a))).

Definition clamped (d : R) : R := Rmax (-1) (Rmin 1 d).

Definition intensity (light a b c : R * R * R) : R :=
  (acos (clamped (facing light a b c)) / PI)%R.

(** Each channel of the base colour times the intensity, floored. *)
Definition scaled (colour : renderer.rgb) (k : R) : renderer.rgb :=
  let '(c0, c1, c2) := colour in
  (Zfloor (IZR c0 * k), Zfloor (IZR c1 * k), Zfloor (IZR c2 * k)).

End shading.

Module loading.

(** A line the reader cannot parse: a vertex line with a field that is
    not a float, or a facet line with an index that is not an
    integer. *)
Definition malformed `{Builtins} (line : string) : bool :=
  if startswith "v " line then
    existsb (fun x => match py_float x with None => true | Some _ => false end)
            (tl (split line))
  else if startswith "f " line then
    existsb (fun x => match py_int (before_slash x) with
                      | None => true
                      | Some _ => false
                      end)
            (tl (split line))
  else false.

(** Signed decimal integers, an instance of the conversions that is
    enough to run the reader on simple files. *)
Definition digit (c : ascii) : option Z :=
  let n := Z.of_nat (nat_of_ascii c) in
  if ((48 <=? n) && (n <=? 57))%Z then Some (n - 48)%Z else None.

Fixpoint digits (acc : Z) (s : string) : option Z :=
  match s with
  | EmptyString => Some acc
  | String c s' =>
      match digit c with
      | Some d => digits (10 * acc + d)%Z s'
      | None => None
      end
  end.

Definition decimal (s : string) : option Z :=
  match s with
  | EmptyString => None
  | String c s' =>
      if Ascii.eqb c "-"%char then
        match s' with
        | EmptyString => None
        | _ => option_map Z.opp (digits 0 s')
        end
      else digits 0 s
  end.

Definition decimal_builtins : Builtins :=
  {| py_float := fun s => option_map IZR (decimal s);
     py_int := decimal |}.

(** A mesh file with one triangle whose plane contains the default
    light direction, and random numbers that colour its facet red. *)
Definition triangle_file : list string :=
  ["# one triangle"; "v 0 0 0"; "v 0 1 0"; "v 2 1 -2"; "f 1 2 3"]%string.

Definition red (n : nat) : Z :=
  match n with
  | O => 255%Z
  | _ => 0%Z
  end.

(** The scene [main] holds for that file once the fill key has been
    pressed. *)
Definition triangle_scene : renderer.Scene :=
  renderer.handle_key_event renderer.K_f
    (renderer.load_model (renderer.Scene_init renderer.WIDTH renderer.HEIGHT)
       [[0; 0; 0]; [0; 1; 0]; [2; 1; -2]]%R
       [[renderer.Idx 0; renderer.Idx 1; renderer.Idx 2;
         renderer.Colour (255, 0, 0)%Z]]
       [(0, 1); (1, 2); (0, 2)]%Z).

End loading.

Module depth.
Import renderer.

(** The facets of the data model: three vertex indices, each valid
    for a list of [n] vertices, possibly followed by a colour. *)
Definition valid_index (n : nat) (i : Z) : bool :=
  ((0 <=? i) && (i <? Z.of_nat n))%Z.

Definition well_formed (n : nat) (f : facet) : bool :=
  match f with
  | Idx a :: Idx b :: Idx c :: _ =>
      valid_index n a && valid_index n b && valid_index n c
  | _ => false
  end.

End depth.

Module frames.
Import renderer.

(** The mesh of a scene. *)
Definition mesh (s : Scene) : list vertex * list facet * list (Z * Z) :=
  (vertices s, facets s, edges s).

(** The attributes of a scene that no handler and no frame assigns. *)
Definition fixed (s : Scene)
  : Z * Z * Z * Z * Z * (R * R * R) * rgb * rgb * rgb :=
  (width s, height s, centre_x s, centre_y s, camera_distortion s,
   light_source s, point_colour s, line_colour s, facet_colour s).

End frames.

Module sorter.
Import renderer.

(** An entry of a facet the key function can read for [n] vertices: an
    integer index, possibly negative, within [-n, n). *)
Definition readable (n : nat) (x : item) : bool :=
  match x with
  | Idx i => ((- Z.of_nat n <=? i) && (i <? Z.of_nat n))%Z
  | Colour _ => false
  end.

(** The facets the key function accepts: those whose first three
    entries, or fewer when the facet is shorter, are readable. *)
Definition accepted (n : nat) (f : facet) : bool :=
  forallb (readable n) (firstn 3 f).

End sorter.


(* ------------------------------------------------------------------ *)
(** ** Vocabulary of the specification, on doubles *)

Module depth64.
Import PrimFloat.
Local Open Scope float_scope.

(** [x] is a number, that is, not NaN: the doubles with [x == x]. *)
Definition number (x : float) : bool := x =? x.

(** The sort key of a facet: the double the key function returns for
    it (NaN stands in where the key function raises). *)
Definition key (depths : list float) (f : renderer.facet) : float :=
  match binary64.avg_depth depths f with
  | Ok k => k
  | Raise _ => nan
  end.

(** The depth of the vertex an entry of a facet refers to. *)
Definition of_vertex (depths : list float) (x : renderer.item) : float :=
  match x with
  | renderer.Idx i => nth (Z.to_nat i) depths nan
  | renderer.Colour _ => nan
  end.

(** The mean of the depths of the three vertices of a facet, with the
    roundings of the code: the depths are added to [0.0] one after the
    other in the order the facet lists its vertices, and the sum is
    divided by [3.0]. *)
Definition mean (depths : list float) (f : renderer.facet) : float :=
  (0 + of_vertex depths (nth 0 f (renderer.Idx 0))
     + of_vertex depths (nth 1 f (renderer.Idx 0))
     + of_vertex depths (nth 2 f (renderer.Idx 0))) / 3.

End depth64.

Module timing64.
Import PrimFloat binary64.
Local Open Scope float_scope.

(** The elapsed-plus-slept time of a frame. *)
Definition cycle_time (time_elapsed : float) : float :=
  time_elapsed + sleep_for time_elapsed.

(** The counters after a run of frames with the given render times. *)
Definition frames (times : list float) (g : Globals) : Globals :=
  fold_left (fun g t => fst (pace g t)) times g.

(** The test of line 342 in a frame that starts with the counters [g]
    and measures [time_elapsed]: the window counter, as the code has
    accumulated it, reaches or exceeds the refresh period. *)
Definition due (g : Globals) (time_elapsed : float) : bool :=
  float_of_int FRAME_RATE_REFRESH
  <=? FRAME_RATE_TIME g + cycle_time time_elapsed.

(** In a run of frames the test of line 342 never succeeds. *)
Fixpoint quiet (times : list float) (g : Globals) : bool :=
  match times with
  | [] => true
  | t :: times' => negb (due g t) && quiet times' (fst (pace g t))
  end.

End timing64.

(* ------------------------------------------------------------------ *)
(** ** Python prelude: indexing *)

Lemma py_index_nth (A : Type) (l : list A) (i : Z) (d : A) :
  (0 <= i < Z.of_nat (List.length l))%Z ->
  py_index l i = Ok (nth (Z.to_nat i) l d).
Proof.
  intros Hi. unfold py_index.
  replace (i <? 0)%Z with false by (symmetry; apply Z.ltb_ge; lia).
  replace (0 <=? i)%Z with true by (symmetry; apply Z.leb_le; lia).
  replace (i <? Z.of_nat (List.length l))%Z with true
    by (symmetry; apply Z.ltb_lt; lia).
  simpl.
  assert (Hn : (Z.to_nat i < List.length l)%nat) by lia.
  destruct (nth_error l (Z.to_nat i)) eqn:E.
  - f_equal. symmetry. now apply nth_error_nth.
  - apply nth_error_None in E. lia.
Qed.

Lemma py_index_out (A : Type) (l : list A) (i : Z) :
  (Z.of_nat (List.length l) <= i)%Z -> py_index l i = Raise IndexError.
Proof.
  intros Hi. unfold py_index.
  replace (i <? 0)%Z with false by (symmetry; apply Z.ltb_ge; lia).
  replace (i <? Z.of_nat (List.length l))%Z with false
    by (symmetry; apply Z.ltb_ge; lia).
  now rewrite andb_false_r.
Qed.

(* ------------------------------------------------------------------ *)
(** ** The edge list of the mesh reader *)

Section EdgeFacts.
Import objreader.

Lemma edge_eqb_eq (e1 e2 : edge) : edge_eqb e1 e2 = true <-> e1 = e2.
Proof.
  destruct e1 as [a b], e2 as [c d]; unfold edge_eqb; simpl.
  rewrite andb_true_iff, !Z.eqb_eq.
  split; [intros [-> ->]; reflexivity | intros [= -> ->]; auto].
Qed.

Lemma edge_eqb_refl (e : edge) : edge_eqb e e = true.
Proof. apply edge_eqb_eq; reflexivity. Qed.

Lemma edge_in_In (e : edge) (l : list edge) : edge_in e l = true <-> In e l.
Proof.
  unfold edge_in; rewrite existsb_exists; split.
  - intros (x & Hx & Heq). apply edge_eqb_eq in Heq; subst; assumption.
  - intros Hin; exists e; split; [assumption | apply edge_eqb_refl].
Qed.

Lemma filter_swap (A : Type) (p q : A -> bool) (l : list A) :
  filter p (filter q l) = filter q (filter p l).
Proof.
  induction l as [|x l IH]; simpl; auto.
  destruct (q x) eqn:Q, (p x) eqn:P; simpl; rewrite ?Q, ?P, IH; auto.
Qed.

Lemma filter_absorb (A : Type) (p q : A -> bool) (l : list A) :
  (forall y, p y = true -> q y = true) ->
  filter p (filter q l) = filter p l.
Proof.
  intros Hpq. induction l as [|x l IH]; simpl; auto.
  destruct (p x) eqn:P.
  - rewrite (Hpq _ P); simpl; now rewrite P, IH.
  - destruct (q x); simpl; now rewrite ?P, IH.
Qed.

Lemma first_seen_filter (p : edge -> bool) (l : list edge) :
  spec.first_seen (filter p l) = filter p (spec.first_seen l).
Proof.
  induction l as [|x l IH]; simpl; auto.
  destruct (p x) eqn:P; simpl; rewrite IH.
  - now rewrite filter_swap.
  - symmetry. apply filter_absorb. intros y Py.
    destruct (edge_eqb y x) eqn:E; auto.
    apply edge_eqb_eq in E; subst. congruence.
Qed.

Lemma first_seen_In (e : edge) (l : list edge) :
  In e (spec.first_seen l) <-> In e l.
Proof.
  induction l as [|x l IH]; simpl; [tauto|].
  rewrite filter_In, IH, negb_true_iff.
  destruct (edge_eqb e x) eqn:E.
  - apply edge_eqb_eq in E; subst. intuition congruence.
  - assert (x <> e) by (intros ->; now rewrite edge_eqb_refl in E).
    intuition congruence.
Qed.

Lemma first_seen_NoDup (l : list edge) : NoDup (spec.first_seen l).
Proof.
  induction l as [|x l IH]; simpl; constructor.
  - rewrite filter_In, edge_eqb_refl. intros [_ [=]].
  - now apply NoDup_filter.
Qed.

Lemma filter_length_le (A : Type) (p : A -> bool) (l : list A) :
  (List.length (filter p l) <= List.length l)%nat.
Proof. induction l as [|x l IH]; simpl; [|destruct (p x); simpl]; lia. Qed.

Lemma first_seen_length (l : list edge) :
  (List.length (spec.first_seen l) <= List.length l)%nat.
Proof.
  induction l as [|x l IH]; simpl; auto.
  pose proof (filter_length_le _ (fun e' => negb (edge_eqb e' x))
                (spec.first_seen l)). lia.
Qed.

Lemma filter_both (A : Type) (p q : A -> bool) (l : list A) :
  filter p (filter q l) = filter (fun x => q x && p x) l.
Proof.
  induction l as [|x l IH]; simpl; auto.
  destruct (q x); simpl; [destruct (p x)|]; now rewrite IH.
Qed.

(** The appends of the reader build the first-seen list. *)
Lemma append_new_first_seen (l acc : list edge) :
  fold_left append_new l acc
  = acc ++ spec.first_seen (filter (fun e => negb (edge_in e acc)) l).
Proof.
  revert acc; induction l as [|e l IH]; intros acc; simpl.
  - now rewrite app_nil_r.
  - unfold append_new at 2. destruct (edge_in e acc) eqn:E; simpl.
    + apply IH.
    + rewrite IH, <- app_assoc. simpl. do 2 f_equal.
      rewrite <- first_seen_filter, filter_both. f_equal.
      apply filter_ext. intros x. unfold edge_in.
      rewrite existsb_app; simpl. now rewrite orb_false_r, negb_orb.
Qed.

Lemma facet_edges_pairs (edges : list edge) (f : facet) :
  (3 <= List.length f)%nat ->
  facet_edges edges f = Ok (fold_left append_new (spec.facet_pairs f) edges).
Proof.
  intros Hlen. unfold facet_edges.
  rewrite (py_index_nth _ f 0 0%Z), (py_index_nth _ f 1 0%Z),
    (py_index_nth _ f 2 0%Z) by lia.
  reflexivity.
Qed.

Lemma facet_edges_short (edges : list edge) (f : facet) :
  (List.length f < 3)%nat -> facet_edges edges f = Raise IndexError.
Proof.
  intros Hlen. unfold facet_edges.
  destruct f as [|a [|b [|c f]]]; simpl in Hlen; try lia; reflexivity.
Qed.

Lemma edges_loop_pairs (facets : list facet) (acc : list edge) :
  Forall (fun f => (3 <= List.length f)%nat) facets ->
  edges_loop facets acc
  = Ok (fold_left append_new (flat_map spec.facet_pairs facets) acc).
Proof.
  intros Hall; revert acc.
  induction Hall as [|f facets Hf _ IH]; intros acc; auto.
  cbn [edges_loop flat_map].
  rewrite (facet_edges_pairs _ _ Hf), fold_left_app.
  cbn [bind]. apply IH.
Qed.

Lemma sorted2_canonical (a b : Z) :
  (fst (sorted2 a b) <= snd (sorted2 a b))%Z.
Proof. unfold sorted2. destruct (Z.ltb_spec b a); simpl; lia. Qed.

Lemma facet_pairs_canonical (facets : list facet) (e : edge) :
  In e (flat_map spec.facet_pairs facets) -> (fst e <= snd e)%Z.
Proof.
  rewrite in_flat_map. intros (f & _ & Hin).
  unfold spec.facet_pairs in Hin; simpl in Hin.
  destruct Hin as [<-|[<-|[<-|[]]]]; apply sorted2_canonical.
Qed.

Lemma facet_pairs_length (facets : list facet) :
  List.length (flat_map spec.facet_pairs facets)
  = (3 * List.length facets)%nat.
Proof.
  induction facets as [|f facets IH]; simpl; auto.
  rewrite IH. lia.
Qed.
End EdgeFacts.

(** C5, as stated, fails on the cube: the twelve triangles of the
    built-in cube give eighteen edges (the twelve edges of the cube and
    the six diagonals of its faces), not twelve. *)
Lemma cube_edges_not_twelve :
  map (map renderer.Idx) spec.cube_facets
  = renderer.facets (renderer.Scene_init renderer.WIDTH renderer.HEIGHT) /\
  exists E, objreader.convert_facets_to_edges spec.cube_facets = Ok E /\
            List.length E = 18%nat /\ List.length E <> 12%nat.
Proof.
  split; [reflexivity|].
  eexists; split; [vm_compute; reflexivity|].
  split; [reflexivity | discriminate].
Qed.

(** C5 (amended).  For every facet list whose facets have their three
    indices, [convert_facets_to_edges] returns the first-seen list of the
    sorted pairs of the facets: no pair occurs twice, every pair is
    sorted ascending (so no unordered pair occurs in both orientations),
    and there are at most three edges per facet.  For the built-in cube
    it returns eighteen edges. *)
Theorem convert_facets_to_edges_first_seen :
  (forall F : list objreader.facet,
      Forall (fun f => (3 <= List.length f)%nat) F ->
      exists E,
        objreader.convert_facets_to_edges F = Ok E /\
        E = spec.first_seen (flat_map spec.facet_pairs F) /\
        NoDup E /\
        (forall a b, In (a, b) E -> (a <= b)%Z) /\
        (forall a b, In (a, b) E -> In (b, a) E -> a = b) /\
        (List.length E <= 3 * List.length F)%nat) /\
  objreader.convert_facets_to_edges spec.cube_facets
  = Ok [(0, 1); (1, 2); (0, 2); (2, 3); (0, 3); (1, 5); (5, 6); (1, 6);
        (2, 6); (4, 5); (4, 7); (5, 7); (6, 7); (0, 4); (3, 4); (3, 7);
        (3, 6); (0, 5)]%Z.
Proof.
  split; [|vm_compute; reflexivity].
  intros F HF.
  exists (spec.first_seen (flat_map spec.facet_pairs F)).
  assert (Hcanon : forall a b,
             In (a, b) (spec.first_seen (flat_map spec.facet_pairs F)) ->
             (a <= b)%Z).
  { intros a b Hin.
    apply (facet_pairs_canonical F (a, b)), (proj1 (first_seen_In _ _) Hin). }
  repeat split.
  - unfold objreader.convert_facets_to_edges.
    rewrite (edges_loop_pairs F [] HF), append_new_first_seen. simpl.
    f_equal. f_equal. clear.
    induction (flat_map spec.facet_pairs F) as [|x l IH]; simpl; congruence.
  - apply first_seen_NoDup.
  - exact Hcanon.
  - intros a b H1 H2. apply Hcanon in H1, H2. lia.
  - rewrite <- facet_pairs_length. apply first_seen_length.
Qed.

(** The amended C5 at the cube. *)
Lemma convert_facets_to_edges_first_seen_witness :
  exists E,
    objreader.convert_facets_to_edges spec.cube_facets = Ok E /\
    E = spec.first_seen (flat_map spec.facet_pairs spec.cube_facets) /\
    NoDup E /\
    (forall a b, In (a, b) E -> (a <= b)%Z) /\
    (forall a b, In (a, b) E -> In (b, a) E -> a = b) /\
    (List.length E <= 3 * List.length spec.cube_facets)%nat.
Proof.
  apply (proj1 convert_facets_to_edges_first_seen spec.cube_facets).
  unfold spec.cube_facets. repeat constructor.
Defined.

(** A facet line with two indices only stops the derivation. *)
Example convert_facets_to_edges_short_facet :
  objreader.convert_facets_to_edges [[0; 1; 2]; [0; 1]]%Z = Raise IndexError.
Proof. reflexivity. Qed.

(* ------------------------------------------------------------------ *)
(** ** The camera position under the input handlers *)

Section CameraFacts.
Import renderer camera.

Lemma handle_mouse_event_Z (button : Z) (s : Scene) :
  Z_ (handle_mouse_event button s)
  = if (button =? 4)%Z then (if (Z_ s <? 0)%Z then Z_ s + 1 else Z_ s)%Z
    else if (button =? 5)%Z then (Z_ s - 1)%Z
    else Z_ s.
Proof.
  unfold handle_mouse_event, Z_.
  destruct (camera_position s) as [[x y] z] eqn:E; simpl.
  destruct (Z.eqb_spec button 4) as [->|H4]; simpl.
  - destruct (z <? 0)%Z; simpl; now rewrite ?E.
  - rewrite E. destruct (button =? 5)%Z; simpl; now rewrite ?E.
Qed.

Lemma handle_mouse_event_XY (button : Z) (s : Scene) :
  X (handle_mouse_event button s) = X s /\
  Y (handle_mouse_event button s) = Y s.
Proof.
  unfold handle_mouse_event, X, Y.
  destruct (camera_position s) as [[x y] z] eqn:E; simpl.
  destruct (button =? 4)%Z; [destruct (z <? 0)%Z|]; simpl; rewrite ?E;
    destruct (button =? 5)%Z; simpl; rewrite ?E; auto.
Qed.

Lemma handle_key_event_XY (key : Z) (s : Scene) :
  X (handle_key_event key s) = X s /\ Y (handle_key_event key s) = Y s.
Proof.
  unfold handle_key_event, X, Y.
  destruct (key =? K_r)%Z, (key =? K_f)%Z, (key =? K_b)%Z; simpl;
    destruct (camera_position s) as [[x y] z]; simpl; auto.
Qed.

Lemma handle_key_event_Z (key : Z) (s : Scene) :
  Z_ (handle_key_event key s) = if (key =? K_b)%Z then (-10)%Z else Z_ s.
Proof.
  unfold handle_key_event, Z_.
  destruct (key =? K_r)%Z, (key =? K_f)%Z, (key =? K_b)%Z; simpl;
    destruct (camera_position s) as [[x y] z]; simpl; auto.
Qed.

Lemma handle_mouse_motion_position l rl r rr (s : Scene) :
  camera_position (handle_mouse_motion l rl r rr s) = camera_position s.
Proof.
  unfold handle_mouse_motion.
  destruct (camera_rotation s) as [[r0 r1] r2] eqn:E.
  destruct l, r; simpl; rewrite ?E; reflexivity.
Qed.

Lemma auto_rotate_position (s : Scene) :
  camera_position (auto_rotate s) = camera_position s.
Proof.
  unfold auto_rotate.
  destruct (rotating s), (camera_rotation s) as [[r0 r1] r2]; reflexivity.
Qed.

Lemma render_loop_position (st : Scene * Globals) (time_elapsed : Q) :
  camera_position (fst (fst (render_loop st time_elapsed)))
  = camera_position (fst st).
Proof.
  destruct st as [s g]. unfold render_loop.
  destruct (render_model s) as [s' r] eqn:E.
  unfold render_model in E. injection E as <- _.
  destruct r; simpl; apply auto_rotate_position.
Qed.

Lemma handle_event_XY (e : event) (s : Scene) :
  X (fst (handle_event e s)) = X s /\ Y (fst (handle_event e s)) = Y s.
Proof.
  destruct e; simpl; auto.
  - apply handle_key_event_XY.
  - apply handle_mouse_event_XY.
  - unfold X, Y. now rewrite handle_mouse_motion_position.
Qed.

Lemma handle_events_XY (events : list event) (s : Scene) :
  X (fst (handle_events events s)) = X s /\
  Y (fst (handle_events events s)) = Y s.
Proof.
  revert s; induction events as [|e events IH]; intros s; simpl; auto.
  pose proof (handle_event_XY e s) as [Hx Hy].
  destruct (handle_event e s) as [s' [|]]; simpl in *.
  - destruct (IH s') as [Hx' Hy']. split; congruence.
  - auto.
Qed.

Lemma main_loop_XY (inputs : list (list event * Q)) (st : Scene * Globals) :
  X (fst (fst (main_loop inputs st))) = X (fst st) /\
  Y (fst (fst (main_loop inputs st))) = Y (fst st).
Proof.
  revert st; induction inputs as [|[events t] inputs IH]; intros st;
    [simpl; auto|].
  cbn [main_loop].
  pose proof (handle_events_XY events (fst st)) as [Hx Hy].
  destruct (handle_events events (fst st)) as [s [|]];
    cbn [fst snd] in *; auto.
  pose proof (render_loop_position (s, snd st) t) as Hp.
  destruct (render_loop (s, snd st) t) as [st' [drawn|e]];
    cbn [fst snd] in *.
  - destruct (IH st') as [Hx' Hy']. unfold X, Y in *.
    rewrite Hx', Hy', Hp. auto.
  - unfold X, Y in *. rewrite Hp. auto.
Qed.

Lemma wheel_snoc (buttons : list Z) (b : Z) (s : Scene) :
  wheel (buttons ++ [b]) s = handle_mouse_event b (wheel buttons s).
Proof. unfold wheel. now rewrite fold_left_app. Qed.
End CameraFacts.

(** C8, as stated, fails: ten notches up from the initial camera bring
    the camera Z position to 0, which is non-negative. *)
Lemma wheel_reaches_zero :
  camera.Z_ (camera.wheel (repeat 4%Z 10)
               (renderer.Scene_init renderer.WIDTH renderer.HEIGHT)) = 0%Z /\
  ~ (camera.Z_ (camera.wheel (repeat 4%Z 10)
                  (renderer.Scene_init renderer.WIDTH renderer.HEIGHT)) < 0)%Z.
Proof. split; [reflexivity | vm_compute; discriminate]. Qed.

(** C8 (amended).  For every sequence of wheel events applied from the
    initial camera state, each notch changes the camera Z position by +1
    (button 4, only while Z is negative) or by -1 (button 5), and the
    camera Z position never becomes positive: it can reach 0 but not
    cross it. *)
Theorem wheel_never_positive :
  forall buttons : list Z,
    let s := camera.wheel buttons
               (renderer.Scene_init renderer.WIDTH renderer.HEIGHT) in
    (camera.Z_ s <= 0)%Z /\
    (camera.Z_ (renderer.handle_mouse_event 4 s)
     = if (camera.Z_ s <? 0)%Z then camera.Z_ s + 1 else camera.Z_ s)%Z /\
    (camera.Z_ (renderer.handle_mouse_event 5 s) = camera.Z_ s - 1)%Z.
Proof.
  intros buttons s.
  split; [|split; rewrite handle_mouse_event_Z; reflexivity].
  subst s. induction buttons as [|b buttons IH] using rev_ind.
  - vm_compute; discriminate.
  - rewrite wheel_snoc, handle_mouse_event_Z.
    destruct (b =? 4)%Z;
      [destruct (Z.ltb_spec (camera.Z_
          (camera.wheel buttons
             (renderer.Scene_init renderer.WIDTH renderer.HEIGHT))) 0)
      | destruct (b =? 5)%Z]; lia.
Qed.

(** C10.  Whatever mesh file is given and whatever events and frame
    times the host supplies, the scene that [main] holds when it stops
    (by a quit event, by an exception, or when the inputs end) has the
    X and Y components of the camera position at their initial value 0:
    the wheel handler and the reset key write the Z component only. *)
Theorem camera_xy_never_change :
  forall (B : Builtins) (argv : list string)
         (files : string -> option (list string)) (rnd : nat -> Z)
         (inputs : list (list renderer.event * Q)),
    let scene := fst (renderer.main_setup argv files rnd) in
    let final := fst (fst (renderer.main_loop inputs
                             (scene, renderer.globals0))) in
    camera.X final = 0%Z /\ camera.Y final = 0%Z /\
    (forall button,
        camera.X (renderer.handle_mouse_event button final) = 0%Z /\
        camera.Y (renderer.handle_mouse_event button final) = 0%Z) /\
    (forall key,
        camera.X (renderer.handle_key_event key final) = 0%Z /\
        camera.Y (renderer.handle_key_event key final) = 0%Z).
Proof.
  intros B argv files rnd inputs scene final.
  assert (H0 : camera.X scene = 0%Z /\ camera.Y scene = 0%Z).
  { subst scene. unfold renderer.main_setup.
    destruct (List.length argv =? 2)%nat; [|split; reflexivity].
    destruct (objreader.read _) as [[[vs fs] es]|e]; split; reflexivity. }
  assert (H1 : camera.X final = 0%Z /\ camera.Y final = 0%Z).
  { subst final.
    destruct (main_loop_XY inputs (scene, renderer.globals0)) as [Hx Hy].
    simpl in Hx, Hy. destruct H0; split; congruence. }
  destruct H1 as [Hx Hy]. repeat split; auto.
  - now rewrite (proj1 (handle_mouse_event_XY button final)).
  - now rewrite (proj2 (handle_mouse_event_XY button final)).
  - now rewrite (proj1 (handle_key_event_XY key final)).
  - now rewrite (proj2 (handle_key_event_XY key final)).
Qed.
(* ------------------------------------------------------------------ *)
(** ** The frame controller *)

Section TimingFacts.
Import PrimFloat binary64 timing64.
Local Open Scope float_scope.

(** A frame in which the window counter reaches the refresh period. *)
Lemma pace_refresh (g : Globals) (t : float) :
  due g t = true ->
  let g' := fst (pace g t) in
  FPS g' = (FRAME_RATE_COUNT g / FRAME_RATE_REFRESH)%Z /\
  FRAME_RATE_TIME g' = 0 /\ FRAME_RATE_COUNT g' = 1%Z.
Proof.
  unfold due, cycle_time. intros H.
  unfold pace, refresh_frame_rate, count_frame. rewrite H.
  cbn [fst FPS FRAME_RATE_TIME FRAME_RATE_COUNT]. auto.
Qed.

(** A frame in which it does not. *)
Lemma pace_within (g : Globals) (t : float) :
  due g t = false ->
  let g' := fst (pace g t) in
  FPS g' = FPS g /\
  FRAME_RATE_TIME g' = FRAME_RATE_TIME g + cycle_time t /\
  FRAME_RATE_COUNT g' = (FRAME_RATE_COUNT g + 1)%Z.
Proof.
  unfold due, cycle_time. intros H.
  unfold pace, refresh_frame_rate, count_frame. rewrite H.
  cbn [fst FPS FRAME_RATE_TIME FRAME_RATE_COUNT]. auto.
Qed.

Lemma frames_app (ts1 ts2 : list float) (g : Globals) :
  frames (ts1 ++ ts2) g = frames ts2 (frames ts1 g).
Proof. unfold frames. apply fold_left_app. Qed.

Lemma quiet_app (ts1 ts2 : list float) (g : Globals) :
  quiet (ts1 ++ ts2) g = quiet ts1 g && quiet ts2 (frames ts1 g).
Proof.
  revert g. induction ts1 as [|t ts1 IH]; intros g; [reflexivity|].
  cbn [app quiet]. rewrite IH, andb_assoc. reflexivity.
Qed.

(** While the test of line 342 fails the displayed rate stands still
    and the frames are counted. *)
Lemma frames_quiet (ts : list float) (g : Globals) :
  quiet ts g = true ->
  FPS (frames ts g) = FPS g /\
  FRAME_RATE_COUNT (frames ts g)
  = (FRAME_RATE_COUNT g + Z.of_nat (List.length ts))%Z.
Proof.
  revert g. induction ts as [|t ts IH]; intros g H.
  - cbn. split; [reflexivity | lia].
  - cbn [quiet] in H. apply andb_true_iff in H. destruct H as [Hd Hq].
    apply negb_true_iff in Hd.
    destruct (pace_within g t Hd) as (Hf & _ & Hc).
    change (frames (t :: ts) g) with (frames ts (fst (pace g t))).
    destruct (IH _ Hq) as (Hf' & Hc').
    rewrite Hf', Hc', Hf, Hc.
    change (List.length (t :: ts)) with (S (List.length ts)).
    split; [reflexivity | lia].
Qed.
End TimingFacts.

Section TimingClaim.
Import PrimFloat.
Local Open Scope float_scope.

(** C7, as stated, fails for the first window of a run.  Sixty frames
    that render in 0.01 second each are slept up to the target frame
    time; through the first fifty-nine the window counter stays below
    the refresh period, the sixtieth brings it to one second, and the
    rate displayed at this boundary is 59, not 60: the frame that
    reaches the boundary is counted after the check.  Likewise
    fifty-nine frames of 17 milliseconds pass the boundary and the rate
    displayed is 58. *)
Lemma first_window_shows_59 :
  timing64.quiet (repeat 0.01 59) binary64.globals0 = true /\
  timing64.due (timing64.frames (repeat 0.01 59) binary64.globals0) 0.01
  = true /\
  binary64.FPS (timing64.frames (repeat 0.01 59) binary64.globals0) = 60%Z /\
  binary64.FPS (timing64.frames (repeat 0.01 60) binary64.globals0) = 59%Z /\
  binary64.FPS (timing64.frames (repeat 0.01 60) binary64.globals0) <> 60%Z /\
  timing64.quiet (repeat 0.017 58) binary64.globals0 = true /\
  timing64.due (timing64.frames (repeat 0.017 58) binary64.globals0) 0.017
  = true /\
  binary64.FPS (timing64.frames (repeat 0.017 59) binary64.globals0) = 58%Z.
Proof.
  repeat apply conj; try (vm_compute; reflexivity); vm_compute; discriminate.
Qed.
End TimingClaim.

(** C7 (amended).  When the window counter reaches or exceeds the
    refresh period of one second, the displayed frame rate is set to
    the frame counter divided by the refresh period and both counters
    are reset; the frame that reaches the boundary is counted after the
    check, as the first frame of the next window.  The window counter
    is the double the code accumulates, frame after frame.  So over a
    run of frames in which that counter stays below the period until
    the last frame brings it there, the displayed rate is unchanged
    before the boundary and is set there, once, to the number of frames
    counted before the boundary frame; in particular it is set to 60
    when the counter of frames has accumulated 60. *)
Theorem frame_rate_window :
  (forall (g : binary64.Globals) (cycle : PrimFloat.float),
      PrimFloat.leb (binary64.float_of_int binary64.FRAME_RATE_REFRESH)
        (PrimFloat.add (binary64.FRAME_RATE_TIME g) cycle) = true ->
      let g' := binary64.refresh_frame_rate g cycle in
      binary64.FPS g'
      = (binary64.FRAME_RATE_COUNT g / binary64.FRAME_RATE_REFRESH)%Z /\
      binary64.FRAME_RATE_TIME g' = PrimFloat.zero /\
      binary64.FRAME_RATE_COUNT g' = 0%Z) /\
  (forall (g : binary64.Globals) (ts : list PrimFloat.float)
          (t : PrimFloat.float),
      timing64.quiet ts g = true ->
      timing64.due (timing64.frames ts g) t = true ->
      (forall ts1 ts2, ts = ts1 ++ ts2 ->
                       binary64.FPS (timing64.frames ts1 g) = binary64.FPS g) /\
      let g' := timing64.frames (ts ++ [t]) g in
      binary64.FPS g'
      = (binary64.FRAME_RATE_COUNT g + Z.of_nat (List.length ts))%Z /\
      (binary64.FRAME_RATE_COUNT (timing64.frames ts g) = 60%Z ->
       binary64.FPS g' = 60%Z) /\
      binary64.FRAME_RATE_TIME g' = PrimFloat.zero /\
      binary64.FRAME_RATE_COUNT g' = 1%Z).
Proof.
  split.
  - intros g cycle H. unfold binary64.refresh_frame_rate. rewrite H.
    cbn [binary64.FPS binary64.FRAME_RATE_TIME binary64.FRAME_RATE_COUNT].
    auto.
  - intros g ts t Hin Hout.
    destruct (frames_quiet ts g Hin) as (Hf & Hc).
    split.
    + intros ts1 ts2 ->. apply frames_quiet.
      rewrite quiet_app in Hin. apply andb_true_iff in Hin. apply Hin.
    + cbv zeta. rewrite frames_app.
      change (timing64.frames [t] (timing64.frames ts g))
        with (fst (binary64.pace (timing64.frames ts g) t)).
      destruct (pace_refresh (timing64.frames ts g) t Hout)
        as (Hf' & Ht' & Hc').
      rewrite Hf', Ht', Hc', Hc.
      unfold binary64.FRAME_RATE_REFRESH. rewrite Z.div_1_r.
      repeat split. intros <-. reflexivity.
Qed.

Section TimingWitness.
Import PrimFloat.
Local Open Scope float_scope.

(** The amended C7 on the window that follows the first refresh: sixty
    more frames that render in 0.01 second each. *)
Lemma frame_rate_window_witness :
  let g := timing64.frames (repeat 0.01 60) binary64.globals0 in
  let ts := repeat 0.01 59 in
  (forall ts1 ts2, ts = ts1 ++ ts2 ->
                   binary64.FPS (timing64.frames ts1 g) = binary64.FPS g) /\
  let g' := timing64.frames (ts ++ [0.01]) g in
  binary64.FPS g'
  = (binary64.FRAME_RATE_COUNT g + Z.of_nat (List.length ts))%Z /\
  (binary64.FRAME_RATE_COUNT (timing64.frames ts g) = 60%Z ->
   binary64.FPS g' = 60%Z) /\
  binary64.FRAME_RATE_TIME g' = 0 /\
  binary64.FRAME_RATE_COUNT g' = 1%Z.
Proof.
  intros g ts.
  apply (proj2 frame_rate_window g ts 0.01).
  - vm_compute. reflexivity.
  - vm_compute. reflexivity.
Defined.

(** The controller rounds.  Ten cycles of 0.1 second leave the window
    counter at 0.9999999999999999, below the refresh period: the
    displayed rate is still 60 and the frame counter stands at 10; the
    eleventh frame brings the refresh, and the rate shown is 10. *)
Example frame_rate_rounding :
  binary64.FRAME_RATE_TIME (timing64.frames (repeat 0.1 10) binary64.globals0)
  = 0.9999999999999999 /\
  binary64.FPS (timing64.frames (repeat 0.1 10) binary64.globals0) = 60%Z /\
  binary64.FRAME_RATE_COUNT
    (timing64.frames (repeat 0.1 10) binary64.globals0) = 10%Z /\
  binary64.FPS (timing64.frames (repeat 0.1 11) binary64.globals0) = 10%Z.
Proof. repeat apply conj; vm_compute; reflexivity. Qed.

(** A clock that steps back gives a negative measurement; the cycle
    time of such a frame is shorter than the target, and the window
    that holds it takes sixty-one frames: after the first refresh, one
    frame measured at -1000 seconds and sixty frames of 0.01 second
    bring the next refresh, and the rate displayed is 61. *)
Example frame_rate_clock_step :
  timing64.cycle_time (-1000) = 0.01666666666665151 /\
  binary64.FPS
    (timing64.frames (repeat 0.01 60 ++ (-1000) :: repeat 0.01 60)
       binary64.globals0)
  = 61%Z.
Proof. split; vm_compute; reflexivity. Qed.
End TimingWitness.

(* ------------------------------------------------------------------ *)
(** ** The per-vertex transform *)

Section TransformFacts.
Import renderer.
Local Open Scope R_scope.

Lemma triple_eq (a b c a' b' c' : R) :
  a = a' -> b = b' -> c = c' -> (a, b, c) = (a', b', c').
Proof. congruence. Qed.

Lemma int_of_float_IZR (n : Z) : int_of_float (IZR n) = n.
Proof.
  unfold int_of_float. destruct (Rle_dec 0 (IZR n)).
  - apply ZfloorZ.
  - apply Zceil_eq. lra.
Qed.

Lemma int_of_float_floor (x : R) (n : Z) :
  0 <= IZR n -> IZR n <= x < IZR n + 1 -> int_of_float x = n.
Proof.
  intros Hn Hx. unfold int_of_float.
  destruct (Rle_dec 0 x) as [_|Hneg]; [|lra].
  now apply Zfloor_eq.
Qed.

Lemma rotate_0_about_Y (r : R) (p : R * R * R) :
  rotate_0 r p = rotation.about_Y (PI - r) p.
Proof.
  destruct p as [[x y] z]. unfold rotate_0, rotation.about_Y.
  rewrite sin_PI_x, cos_minus, cos_PI, sin_PI.
  apply triple_eq; ring.
Qed.

Lemma rotate_1_about_X (r : R) (p : R * R * R) :
  rotate_1 r p = rotation.about_X (- r) p.
Proof.
  destruct p as [[x y] z]. unfold rotate_1, rotation.about_X.
  rewrite sin_neg, cos_neg. apply triple_eq; ring.
Qed.

Lemma rotate_2_about_Z (r : R) (p : R * R * R) :
  rotate_2 r p = rotation.about_Z r p.
Proof.
  destruct p as [[x y] z]. unfold rotate_2, rotation.about_Z.
  apply triple_eq; ring.
Qed.

Lemma sin_cos_square (r : R) : sin r * sin r + cos r * cos r = 1.
Proof. pose proof (sin2_cos2 r) as H. unfold Rsqr in H. exact H. Qed.

Lemma rotate_0_norm2 (r : R) (p : R * R * R) :
  rotation.norm2 (rotate_0 r p) = rotation.norm2 p.
Proof.
  destruct p as [[x y] z]. unfold rotate_0, rotation.norm2.
  pose proof (sin_cos_square r). nra.
Qed.

Lemma rotate_1_norm2 (r : R) (p : R * R * R) :
  rotation.norm2 (rotate_1 r p) = rotation.norm2 p.
Proof.
  destruct p as [[x y] z]. unfold rotate_1, rotation.norm2.
  pose proof (sin_cos_square r). nra.
Qed.

Lemma rotate_2_norm2 (r : R) (p : R * R * R) :
  rotation.norm2 (rotate_2 r p) = rotation.norm2 p.
Proof.
  destruct p as [[x y] z]. unfold rotate_2, rotation.norm2.
  pose proof (sin_cos_square r). nra.
Qed.

(** With all angles zero the rotation steps negate x and z. *)
Lemma rotate_zero (s : Scene) (x y z : R) :
  camera_rotation s = (0, 0, 0) -> rotate s (x, y, z) = (- x, y, - z).
Proof.
  intros H. unfold rotate, rotate_0, rotate_1, rotate_2. rewrite H.
  rewrite sin_0, cos_0. apply triple_eq; ring.
Qed.

Lemma transform_triple (s : Scene) (x y z : R) :
  transform s [x; y; z] = Ok (project s (translate s (rotate s (x, y, z)))).
Proof. reflexivity. Qed.
End TransformFacts.

Section ProjectionFacts.
Import renderer.
Local Open Scope R_scope.

Lemma guard_depth_nonzero (z : R) : z <> 0 -> guard_depth z = z.
Proof. intros H. unfold guard_depth. now destruct (Req_dec_T z 0). Qed.

Lemma guard_depth_zero : guard_depth 0 = EPSILON.
Proof. unfold guard_depth. now destruct (Req_dec_T 0 0). Qed.

Lemma EPSILON_nonzero : EPSILON <> 0.
Proof. unfold EPSILON. lra. Qed.

(** A point on the axis of the camera is drawn at the centre. *)
Lemma project_on_axis (s : Scene) (z : R) :
  project s (0, 0, z) = ((centre_x s, centre_y s), guard_depth z).
Proof.
  unfold project.
  assert (Hz : guard_depth z <> 0).
  { unfold guard_depth. destruct (Req_dec_T z 0); auto using EPSILON_nonzero. }
  replace (IZR (camera_distortion s) * 0 / guard_depth z + IZR (centre_x s))
    with (IZR (centre_x s)) by (field; exact Hz).
  replace (IZR (camera_distortion s) * 0 / guard_depth z + IZR (centre_y s))
    with (IZR (centre_y s)) by (field; exact Hz).
  now rewrite !int_of_float_IZR.
Qed.

Lemma camera_space_zero_rotation (s : Scene) (x y z : R) :
  camera_rotation s = (0, 0, 0) ->
  camera_position s = (0, 0, -10)%Z ->
  translate s (rotate s (x, y, z)) = (- x, y, 10 - z).
Proof.
  intros Hr Hp. rewrite (rotate_zero s x y z Hr).
  unfold translate. rewrite Hp. apply triple_eq; ring.
Qed.
End ProjectionFacts.

(** C1, as stated, fails: with zero rotation the first rotation step
    negates z, so the vertex (0,0,-10) seen from the camera at
    (0,0,-10) has depth 20 after the translation, not 0, and no epsilon
    is substituted. *)
Lemma depth_of_vertex_is_twenty :
  let s := renderer.Scene_init renderer.WIDTH renderer.HEIGHT in
  renderer.translate s (renderer.rotate s (0, 0, -10)%R) = (0, 0, 20)%R /\
  (20 <> 0)%R /\
  renderer.transform s [0; 0; -10]%R = Ok ((400, 300)%Z, 20%R) /\
  (20 <> renderer.EPSILON)%R.
Proof.
  intros s.
  assert (H : renderer.translate s (renderer.rotate s (0, 0, -10)%R)
              = (0, 0, 20)%R).
  { subst s. rewrite camera_space_zero_rotation by reflexivity.
    apply triple_eq; ring. }
  repeat split.
  - exact H.
  - lra.
  - rewrite transform_triple, H, project_on_axis.
    rewrite guard_depth_nonzero by lra. reflexivity.
  - unfold renderer.EPSILON. lra.
Qed.

(** C1 (amended).  With all three rotation angles zero and the camera
    at (0,0,-10): the vertex (0,0,-10) has depth exactly 20 after the
    translation, which is kept, and the vertex (0,0,10) has depth
    exactly 0 after the translation, which is substituted with the
    epsilon 0.00001; both are drawn at the screen centre
    (centre_x, centre_y) exactly. *)
Theorem transform_on_camera_axis :
  forall width height : Z,
    let s := renderer.Scene_init width height in
    renderer.camera_rotation s = (0, 0, 0)%R /\
    renderer.camera_position s = (0, 0, -10)%Z /\
    renderer.translate s (renderer.rotate s (0, 0, -10)%R) = (0, 0, 20)%R /\
    renderer.transform s [0; 0; -10]%R
    = Ok ((renderer.centre_x s, renderer.centre_y s), 20%R) /\
    renderer.translate s (renderer.rotate s (0, 0, 10)%R) = (0, 0, 0)%R /\
    renderer.guard_depth 0 = (1 / 100000)%R /\
    renderer.transform s [0; 0; 10]%R
    = Ok ((renderer.centre_x s, renderer.centre_y s), (1 / 100000)%R).
Proof.
  intros width height s.
  assert (H1 : renderer.translate s (renderer.rotate s (0, 0, -10)%R)
               = (0, 0, 20)%R).
  { subst s. rewrite camera_space_zero_rotation by reflexivity.
    apply triple_eq; ring. }
  assert (H2 : renderer.translate s (renderer.rotate s (0, 0, 10)%R)
               = (0, 0, 0)%R).
  { subst s. rewrite camera_space_zero_rotation by reflexivity.
    apply triple_eq; ring. }
  repeat split; auto.
  - rewrite transform_triple, H1, project_on_axis.
    rewrite guard_depth_nonzero by lra. reflexivity.
  - apply guard_depth_zero.
  - rewrite transform_triple, H2, project_on_axis, guard_depth_zero.
    reflexivity.
Qed.

(** C2, as stated, fails: the first step of the transform is not the
    rotation about X.  At angle zero the claimed rotations leave every
    vertex where it is, while the transform sends (1,0,0) to (-1,0,0);
    the first step changes x and leaves y fixed. *)
Lemma first_rotation_is_not_about_X :
  let s := renderer.Scene_init renderer.WIDTH renderer.HEIGHT in
  rotation.XYZ (renderer.camera_rotation s) (1, 0, 0)%R = (1, 0, 0)%R /\
  renderer.rotate s (1, 0, 0)%R = (-1, 0, 0)%R /\
  renderer.rotate s (1, 0, 0)%R
  <> rotation.XYZ (renderer.camera_rotation s) (1, 0, 0)%R /\
  renderer.rotate_0 0 (1, 0, 0)%R <> rotation.about_X 0 (1, 0, 0)%R.
Proof.
  intros s.
  assert (H1 : rotation.XYZ (renderer.camera_rotation s) (1, 0, 0)%R
               = (1, 0, 0)%R).
  { subst s. simpl. rewrite sin_0, cos_0. apply triple_eq; ring. }
  assert (H2 : renderer.rotate s (1, 0, 0)%R = (-1, 0, 0)%R).
  { subst s. rewrite rotate_zero by reflexivity. apply triple_eq; ring. }
  repeat split; auto.
  - rewrite H1, H2. intros [= H]. lra.
  - unfold renderer.rotate_0, rotation.about_X. rewrite sin_0, cos_0.
    intros [= H _]. lra.
Qed.

(** C2 (amended).  For every vertex and every camera rotation
    (r0, r1, r2), the transform applies three plane rotations in the
    fixed order: first in the x-z plane, mapping (x, z) to
    (-x cos r0 + z sin r0, -x sin r0 - z cos r0) and leaving y fixed
    (the rotation about Y by pi - r0); then in the y-z plane, mapping
    (y, z) to (y cos r1 + z sin r1, -y sin r1 + z cos r1) and leaving x
    fixed (the rotation about X by -r1); then in the x-y plane, mapping
    (x, y) to (x cos r2 - y sin r2, y cos r2 + x sin r2) and leaving z
    fixed (the rotation about Z by r2); each step works on the
    coordinates the previous one produced and keeps the length of the
    vector. *)
Theorem rotation_steps :
  forall (s : renderer.Scene) (x y z : R),
    let r0 := fst (fst (renderer.camera_rotation s)) in
    let r1 := snd (fst (renderer.camera_rotation s)) in
    let r2 := snd (renderer.camera_rotation s) in
    renderer.rotate_0 r0 (x, y, z)
    = (- x * cos r0 + z * sin r0, y, - x * sin r0 - z * cos r0)%R /\
    renderer.rotate_1 r1 (x, y, z)
    = (x, y * cos r1 + z * sin r1, - y * sin r1 + z * cos r1)%R /\
    renderer.rotate_2 r2 (x, y, z)
    = (x * cos r2 - y * sin r2, y * cos r2 + x * sin r2, z)%R /\
    renderer.rotate s (x, y, z)
    = renderer.rotate_2 r2 (renderer.rotate_1 r1
                              (renderer.rotate_0 r0 (x, y, z))) /\
    renderer.rotate s (x, y, z)
    = rotation.about_Z r2 (rotation.about_X (- r1)
                             (rotation.about_Y (PI - r0) (x, y, z))) /\
    rotation.norm2 (renderer.rotate s (x, y, z)) = rotation.norm2 (x, y, z) /\
    renderer.transform s [x; y; z]
    = Ok (renderer.project s
            (renderer.translate s
               (renderer.rotate_2 r2 (renderer.rotate_1 r1
                                        (renderer.rotate_0 r0 (x, y, z)))))).
Proof.
  intros s x y z r0 r1 r2.
  assert (Hrot : renderer.rotate s (x, y, z)
                 = renderer.rotate_2 r2 (renderer.rotate_1 r1
                                           (renderer.rotate_0 r0 (x, y, z)))).
  { subst r0 r1 r2. unfold renderer.rotate.
    destruct (renderer.camera_rotation s) as [[a b] c]. reflexivity. }
  repeat apply conj.
  - unfold renderer.rotate_0. apply triple_eq; ring.
  - unfold renderer.rotate_1. apply triple_eq; ring.
  - unfold renderer.rotate_2. apply triple_eq; ring.
  - exact Hrot.
  - rewrite Hrot, rotate_2_about_Z, rotate_1_about_X, rotate_0_about_Y.
    reflexivity.
  - rewrite Hrot, rotate_2_norm2, rotate_1_norm2, rotate_0_norm2.
    reflexivity.
  - rewrite transform_triple, Hrot. reflexivity.
Qed.

(* ------------------------------------------------------------------ *)
(** ** The shader *)

Section ShadingFacts.
Import renderer.
Local Open Scope R_scope.

Lemma sub3_vec (b a : R * R * R) :
  sub3 (shading.vec b) (shading.vec a) = Ok (shading.minus b a).
Proof. destruct b as [[b0 b1] b2], a as [[a0 a1] a2]. reflexivity. Qed.

Lemma length3_euclid (v : R * R * R) : length3 v = shading.euclid v.
Proof.
  destruct v as [[x y] z]. unfold length3, shading.euclid, py_sum. simpl.
  f_equal. ring.
Qed.

Lemma euclid_zero (v : R * R * R) : shading.euclid v = 0 -> v = (0, 0, 0).
Proof.
  destruct v as [[x y] z]. unfold shading.euclid. intros H.
  apply sqrt_eq_0 in H; [|nra].
  apply triple_eq; nra.
Qed.

Lemma euclid_minus_nonzero (b a : R * R * R) :
  a <> b -> shading.euclid (shading.minus b a) <> 0.
Proof.
  intros Hab H. apply euclid_zero in H. apply Hab.
  destruct b as [[b0 b1] b2], a as [[a0 a1] a2].
  unfold shading.minus in H. injection H as H0 H1 H2.
  apply triple_eq; lra.
Qed.

Lemma normalize_unit (v : R * R * R) :
  shading.euclid v <> 0 -> normalize v (length3 v) = Ok (shading.unit v).
Proof.
  intros H. rewrite length3_euclid. destruct v as [[x y] z].
  unfold normalize, py_div.
  destruct (Req_dec_T (shading.euclid (x, y, z)) 0); [contradiction|].
  reflexivity.
Qed.

Lemma clamp_clamped (d : R) : clamp d = shading.clamped d.
Proof.
  unfold clamp, shading.clamped, Rmax, Rmin.
  destruct (Rgt_dec d 1), (Rlt_dec d (-1)), (Rle_dec 1 d);
    try lra; destruct (Rle_dec (-1) 1); try lra;
    destruct (Rle_dec (-1) d); lra.
Qed.

(** The shader on three vertices with two non-degenerate edges. *)
Lemma gouraud_shading_scaled (s : Scene) (a b c : R * R * R) (colour : rgb) :
  a <> b -> a <> c ->
  gouraud_shading s (shading.vec a) (shading.vec b) (shading.vec c) colour
  = Ok (shading.scaled colour (shading.intensity (light_source s) a b c)).
Proof.
  intros Hab Hac. unfold gouraud_shading.
  rewrite !sub3_vec. cbn [bind].
  rewrite (normalize_unit _ (euclid_minus_nonzero b a Hab)). cbn [bind].
  rewrite (normalize_unit _ (euclid_minus_nonzero c a Hac)). cbn [bind].
  rewrite clamp_clamped. destruct colour as [[c0 c1] c2]. reflexivity.
Qed.
End ShadingFacts.

Section ShadingExample.
Import renderer.
Local Open Scope R_scope.

Lemma euclid_010 : shading.euclid (0, 1, 0) = 1.
Proof.
  unfold shading.euclid.
  replace (0 * 0 + 1 * 1 + 0 * 0) with 1 by ring. apply sqrt_1.
Qed.

Lemma euclid_212 : shading.euclid (2, 1, -2) = 3.
Proof.
  unfold shading.euclid.
  replace (2 * 2 + 1 * 1 + -2 * -2) with (3 * 3) by ring.
  apply sqrt_square. lra.
Qed.

(** A facet whose plane contains the default light direction. *)
Lemma facing_example :
  shading.facing (7 / 10, 7 / 10, - (7 / 10)) (0, 0, 0) (0, 1, 0) (2, 1, -2)
  = 0.
Proof.
  unfold shading.facing, shading.minus.
  replace (0 - 0) with 0 by ring. replace (1 - 0) with 1 by ring.
  replace (2 - 0) with 2 by ring. replace (-2 - 0) with (-2) by ring.
  unfold shading.unit. rewrite euclid_010, euclid_212.
  unfold cross, dot. field.
Qed.

Lemma scaled_half_example :
  shading.scaled (100, 255, 100)%Z (1 / 2) = (50, 127, 50)%Z /\
  shading.scaled (255, 0, 0)%Z (1 / 2) = (127, 0, 0)%Z.
Proof.
  unfold shading.scaled.
  split; repeat (f_equal; try (apply Zfloor_eq; lra)).
Qed.
End ShadingExample.
(* ------------------------------------------------------------------ *)
(** ** The stable sort behind [sorted] *)

Section SortFacts.
Variables (A K : Type) (lt : K -> K -> bool).

Lemma insert_keyed_perm (x : K * A) (l : list (K * A)) :
  Permutation (x :: l) (insert_keyed lt x l).
Proof.
  induction l as [|y l IH]; simpl; auto.
  destruct (lt (fst y) (fst x)); auto.
  rewrite perm_swap. now apply perm_skip.
Qed.

Lemma sort_keyed_perm (l : list (K * A)) : Permutation l (sort_keyed lt l).
Proof.
  induction l as [|x l IH]; simpl; auto.
  rewrite <- insert_keyed_perm. now apply perm_skip.
Qed.

Lemma sort_with_perm (reverse : bool) (l : list (K * A)) :
  Permutation l (sort_with lt reverse l).
Proof.
  unfold sort_with. destruct reverse; [|apply sort_keyed_perm].
  rewrite <- Permutation_rev, <- sort_keyed_perm. apply Permutation_rev.
Qed.

(** Elements that [p] selects are never moved past each other. *)
Section Stable.
Variable p : K * A -> bool.
Hypothesis p_tied :
  forall x y, p x = true -> p y = true -> lt (fst y) (fst x) = false.



End Stable.

(** On the keys that satisfy [good], [lt] is the strict part of a total
    preorder.  (On doubles: the keys that are not NaN.) *)
Section Ordered.
Variable good : K -> bool.
Hypothesis lt_asym : forall a b, lt a b = true -> lt b a = false.
Hypothesis le_trans :
  forall a b c, good a = true -> good b = true -> good c = true ->
                lt b a = false -> lt c b = false -> lt c a = false.

Lemma sort_keyed_good (l : list (K * A)) :
  Forall (fun y => good (fst y) = true) l ->
  Forall (fun y => good (fst y) = true) (sort_keyed lt l).
Proof.
  intros Hl. apply Forall_forall. intros y Hy.
  apply (Permutation_in _ (Permutation_sym (sort_keyed_perm l))) in Hy.
  rewrite Forall_forall in Hl. auto.
Qed.

Lemma insert_keyed_sorted (x : K * A) (l : list (K * A)) :
  good (fst x) = true -> Forall (fun y => good (fst y) = true) l ->
  StronglySorted (ascending lt) l ->
  StronglySorted (ascending lt) (insert_keyed lt x l).
Proof.
  intros Hx Hl Hs. induction Hs as [|y l Hs IH Hy]; simpl.
  - repeat constructor.
  - inversion Hl as [|? ? Hgy Hgl]; subst.
    destruct (lt (fst y) (fst x)) eqn:E.
    + constructor; auto.
      rewrite <- insert_keyed_perm. constructor; auto.
      unfold ascending. now apply lt_asym.
    + constructor; [constructor; auto|].
      constructor; [exact E|].
      rewrite Forall_forall in *. intros z Hz.
      unfold ascending in *. apply (le_trans _ (fst y)); auto.
Qed.

Lemma sort_keyed_sorted (l : list (K * A)) :
  Forall (fun y => good (fst y) = true) l ->
  StronglySorted (ascending lt) (sort_keyed lt l).
Proof.
  induction 1 as [|x l Hx Hl IH]; simpl; [constructor|].
  apply insert_keyed_sorted; auto. now apply sort_keyed_good.
Qed.
End Ordered.



Lemma insert_keyed_head (x : K * A) (l : list (K * A)) :
  Forall (ascending lt x) l -> insert_keyed lt x l = x :: l.
Proof.
  intros Hx. destruct l as [|y l]; auto.
  inversion Hx as [|? ? Hy _]; subst.
  cbn [insert_keyed]. unfold ascending in Hy. now rewrite Hy.
Qed.

(** A list already in ascending order is left as it is. *)
Lemma sort_keyed_sorted_id (l : list (K * A)) :
  StronglySorted (ascending lt) l -> sort_keyed lt l = l.
Proof.
  induction 1 as [|x l Hs IH Hx]; auto.
  cbn [sort_keyed fold_right]. fold (sort_keyed lt l).
  rewrite IH. now apply insert_keyed_head.
Qed.
End SortFacts.



Lemma comprehension_total (X Y : Type) (f : X -> result Y) (g : X -> Y)
      (l : list X) :
  Forall (fun x => f x = Ok (g x)) l -> comprehension f l = Ok (map g l).
Proof.
  induction 1 as [|x l Hx _ IH]; simpl; auto. now rewrite Hx, IH.
Qed.

Lemma combine_keys (X Y : Type) (g : X -> Y) (l : list X) :
  combine (map g l) l = map (fun x => (g x, x)) l.
Proof. induction l as [|x l IH]; simpl; congruence. Qed.

(* ------------------------------------------------------------------ *)
(** ** The order of the doubles

    The comparisons of the primitive floats are specified on the
    sign, mantissa and exponent of their arguments ([SFcompare]); the
    facts below follow by cases on these. *)

Ltac compare_cases :=
  repeat match goal with
  | H : context [(?x ?= ?y)%Z] |- _ =>
      destruct (Z.compare_spec x y); try subst
  | |- context [(?x ?= ?y)%Z] =>
      destruct (Z.compare_spec x y); try subst
  | H : context [Pos.compare_cont Eq ?x ?y] |- _ =>
      change (Pos.compare_cont Eq x y) with (Pos.compare x y) in *;
      destruct (Pos.compare_spec x y); try subst
  | |- context [Pos.compare_cont Eq ?x ?y] =>
      change (Pos.compare_cont Eq x y) with (Pos.compare x y) in *;
      destruct (Pos.compare_spec x y); try subst
  end.

Ltac float_cases :=
  unfold SpecFloat.SFltb, SpecFloat.SFleb, SpecFloat.SFeqb,
    SpecFloat.SFcompare;
  repeat match goal with
  | a : SpecFloat.spec_float |- _ => destruct a as [[|]|[|]| |[|] ? ?]
  end;
  cbn; intros; try discriminate; try reflexivity;
  compare_cases; cbn in *; try discriminate; try reflexivity; try lia.

Section DoubleFacts.
Import PrimFloat.
Local Open Scope float_scope.

Lemma SFltb_asym (a b : SpecFloat.spec_float) :
  SpecFloat.SFltb a b = true -> SpecFloat.SFltb b a = false.
Proof. float_cases. Qed.

Lemma SFltb_le_trans (a b c : SpecFloat.spec_float) :
  SpecFloat.SFeqb a a = true -> SpecFloat.SFeqb b b = true ->
  SpecFloat.SFeqb c c = true ->
  SpecFloat.SFltb b a = false -> SpecFloat.SFltb c b = false ->
  SpecFloat.SFltb c a = false.
Proof. float_cases. Qed.



Lemma SFeqb_not_ltb (a b : SpecFloat.spec_float) :
  SpecFloat.SFeqb a b = true -> SpecFloat.SFltb b a = false.
Proof. float_cases. Qed.

Lemma ltb_asym (a b : float) : (a <? b) = true -> (b <? a) = false.
Proof. rewrite !FloatAxioms.ltb_spec. apply SFltb_asym. Qed.

Lemma ltb_le_trans (a b c : float) :
  depth64.number a = true -> depth64.number b = true ->
  depth64.number c = true ->
  (b <? a) = false -> (c <? b) = false -> (c <? a) = false.
Proof.
  unfold depth64.number.
  rewrite !FloatAxioms.ltb_spec, !FloatAxioms.eqb_spec.
  apply SFltb_le_trans.
Qed.



Lemma eqb_not_ltb (a b : float) : (a =? b) = true -> (b <? a) = false.
Proof.
  rewrite FloatAxioms.ltb_spec, FloatAxioms.eqb_spec. apply SFeqb_not_ltb.
Qed.
End DoubleFacts.

(* ------------------------------------------------------------------ *)
(** ** The painter's algorithm *)

Section PainterFacts.
Import renderer PrimFloat.
Local Open Scope float_scope.

Lemma valid_index_depth (X : Type) (depths : list X) (i : Z) (d : X) :
  depth.valid_index (List.length depths) i = true ->
  py_index depths i = Ok (nth (Z.to_nat i) depths d).
Proof.
  unfold depth.valid_index. rewrite andb_true_iff, Z.leb_le, Z.ltb_lt.
  intros Hi. now apply py_index_nth.
Qed.

(** On a facet of the data model the key function returns the mean
    with the roundings of the code. *)
Lemma avg_depth_mean (depths : list float) (f : facet) :
  depth.well_formed (List.length depths) f = true ->
  binary64.avg_depth depths f = Ok (depth64.mean depths f).
Proof.
  destruct f as [|[a|] [|[b|] [|[c|] rest]]]; try discriminate.
  cbn [depth.well_formed]. rewrite !andb_true_iff.
  intros [[Ha Hb] Hc].
  unfold binary64.avg_depth.
  cbn [firstn comprehension binary64.depth_at].
  rewrite (valid_index_depth _ _ _ nan Ha), (valid_index_depth _ _ _ nan Hb),
    (valid_index_depth _ _ _ nan Hc).
  reflexivity.
Qed.

Lemma key_mean (depths : list float) (f : facet) :
  depth.well_formed (List.length depths) f = true ->
  depth64.key depths f = depth64.mean depths f.
Proof.
  intros Hwf. unfold depth64.key. now rewrite avg_depth_mean.
Qed.

Lemma avg_depth_key (depths : list float) (f : facet) :
  depth.well_formed (List.length depths) f = true ->
  binary64.avg_depth depths f = Ok (depth64.key depths f).
Proof.
  intros Hwf. rewrite (key_mean _ _ Hwf). now apply avg_depth_mean.
Qed.

(** On a well-formed facet list the sort runs on the facets paired
    with their keys. *)
Lemma painters_algorithm_keyed (depths : list float) (facets : list facet) :
  forallb (depth.well_formed (List.length depths)) facets = true ->
  binary64.painters_algorithm depths facets
  = Ok (map snd (sort_with ltb true
                   (map (fun f => (depth64.key depths f, f)) facets))).
Proof.
  intros Hwf. unfold binary64.painters_algorithm, sorted.
  rewrite (comprehension_total _ _ _ (depth64.key depths)).
  - cbn [bind]. now rewrite combine_keys.
  - rewrite forallb_forall in Hwf. apply Forall_forall.
    intros f Hf. apply avg_depth_key, Hwf, Hf.
Qed.


Lemma keyed_again (depths : list float) (l : list (float * facet)) :
  Forall (fun x => fst x = depth64.key depths (snd x)) l ->
  map (fun f => (depth64.key depths f, f)) (map snd l) = l.
Proof.
  induction 1 as [|x l Hx _ IH]; auto.
  cbn [map]. rewrite IH, <- Hx. now destruct x.
Qed.

Lemma keyed_good (depths : list float) (facets : list facet) :
  forallb (fun f => depth64.number (depth64.key depths f)) facets = true ->
  Forall (fun y : float * facet => depth64.number (fst y) = true)
    (map (fun f => (depth64.key depths f, f)) facets).
Proof.
  intros Hnum. apply Forall_forall. intros x Hx.
  apply in_map_iff in Hx. destruct Hx as (f & <- & Hf).
  rewrite forallb_forall in Hnum. now apply Hnum.
Qed.


Lemma sort_with_twice (X : Type) (l : list (float * X)) :
  Forall (fun y => depth64.number (fst y) = true) l ->
  sort_with ltb true (sort_with ltb true l) = sort_with ltb true l.
Proof.
  intros Hl. unfold sort_with. rewrite rev_involutive. f_equal.
  apply sort_keyed_sorted_id.
  apply (sort_keyed_sorted _ _ ltb depth64.number ltb_asym ltb_le_trans).
  now apply Forall_rev.
Qed.

Lemma sort_with_ties (X : Type) (l : list (float * X)) :
  (forall x y, In x l -> In y l -> (fst x =? fst y) = true) ->
  sort_with ltb true l = l.
Proof.
  intros Htie. unfold sort_with.
  rewrite sort_keyed_sorted_id; [apply rev_involutive|].
  assert (Hrev : forall x y, In x (rev l) -> In y (rev l) ->
                             (fst x =? fst y) = true).
  { intros x y Hx Hy. apply Htie; now apply in_rev. }
  clear Htie. induction (rev l) as [|x m IH]; constructor.
  - apply IH. intros a b Ha Hb. apply Hrev; now right.
  - apply Forall_forall. intros y Hy. unfold ascending.
    apply eqb_not_ltb. apply Hrev; [now left | now right].
Qed.

(** The sorted facets with their keys. *)
Lemma painters_algorithm_ok (depths : list float) (facets : list facet) :
  forallb (depth.well_formed (List.length depths)) facets = true ->
  let keyed := sort_with ltb true
                 (map (fun f => (depth64.key depths f, f)) facets) in
  binary64.painters_algorithm depths facets = Ok (map snd keyed) /\
  Permutation (map (fun f => (depth64.key depths f, f)) facets) keyed /\
  Forall (fun x => fst x = depth64.key depths (snd x)) keyed /\
  forallb (depth.well_formed (List.length depths)) (map snd keyed) = true.
Proof.
  intros Hwf keyed.
  assert (Hperm : Permutation
                    (map (fun f => (depth64.key depths f, f)) facets) keyed)
    by apply sort_with_perm.
  assert (Hin : forall x, In x keyed ->
                          fst x = depth64.key depths (snd x)
                          /\ In (snd x) facets).
  { intros x Hx. apply (Permutation_in _ (Permutation_sym Hperm)) in Hx.
    apply in_map_iff in Hx. destruct Hx as (f & <- & Hf). auto. }
  repeat apply conj.
  - now apply painters_algorithm_keyed.
  - exact Hperm.
  - apply Forall_forall. intros x Hx. now apply Hin.
  - apply forallb_forall. intros f Hf.
    apply in_map_iff in Hf. destruct Hf as (x & <- & Hx).
    rewrite forallb_forall in Hwf. now apply Hwf, Hin.
Qed.
End PainterFacts.


Section PainterExamples.
Import renderer PrimFloat.
Local Open Scope float_scope.


(** The keys are rounded sums.  The two facets below refer to the same
    three vertices; added in the order 0.3, 0.2, 0.1 the depths give
    the key 0.19999999999999998, added in the order 0.1, 0.2, 0.3 they
    give 0.20000000000000004, and the sorter puts the second facet
    first. *)
Example painters_algorithm_rounding :
  depth64.key [0.1; 0.2; 0.3] [Idx 2; Idx 1; Idx 0] = 0.19999999999999998 /\
  depth64.key [0.1; 0.2; 0.3] [Idx 0; Idx 1; Idx 2] = 0.20000000000000004 /\
  binary64.painters_algorithm [0.1; 0.2; 0.3]
    [[Idx 2; Idx 1; Idx 0]; [Idx 0; Idx 1; Idx 2]]
  = Ok [[Idx 0; Idx 1; Idx 2]; [Idx 2; Idx 1; Idx 0]].
Proof. repeat apply conj; vm_compute; reflexivity. Qed.

(** Three facets, the first and the third with the same key: the
    deeper second one comes first, the two others keep their order. *)
Example painters_algorithm_tie :
  binary64.painters_algorithm [1; 2]
    [[Idx 0; Idx 0; Idx 0]; [Idx 1; Idx 1; Idx 1];
     [Idx 0; Idx 0; Idx 0; Colour (9, 9, 9)%Z]]
  = Ok [[Idx 1; Idx 1; Idx 1]; [Idx 0; Idx 0; Idx 0];
        [Idx 0; Idx 0; Idx 0; Colour (9, 9, 9)%Z]].
Proof. vm_compute. reflexivity. Qed.

(** A key that is NaN compares false with every key, and the order of
    the other facets is lost: the depths [inf] and [-inf] of the second
    facet add up to NaN, and the facet of depth 1 stays before the
    facet of depth 2. *)
Example painters_algorithm_nan :
  depth64.number
    (depth64.key [1; infinity; neg_infinity; 2] [Idx 1; Idx 2; Idx 1])
  = false /\
  binary64.painters_algorithm [1; infinity; neg_infinity; 2]
    [[Idx 0; Idx 0; Idx 0]; [Idx 1; Idx 2; Idx 1]; [Idx 3; Idx 3; Idx 3]]
  = Ok [[Idx 0; Idx 0; Idx 0]; [Idx 1; Idx 2; Idx 1]; [Idx 3; Idx 3; Idx 3]].
Proof. split; vm_compute; reflexivity. Qed.

(** A facet that refers to a vertex that does not exist makes the key
    function raise, and the sort gives no result. *)
Example painters_algorithm_bad_index :
  binary64.painters_algorithm [1] [[Idx 5; Idx 0; Idx 0]]
  = Raise IndexError.
Proof. reflexivity. Qed.
End PainterExamples.

(* ------------------------------------------------------------------ *)
(** ** Loading a mesh *)

Section LoadingFacts.
Context `{Builtins}.
Import objreader.

(** A comprehension over a conversion stops at the first literal the
    conversion rejects, and it can only stop with [ValueError]. *)
Lemma comprehension_value_error (A B : Type) (f : A -> result B)
      (l : list A) :
  (forall x, f x = Raise ValueError \/ exists y, f x = Ok y) ->
  (comprehension f l = Raise ValueError \/ exists ys, comprehension f l = Ok ys)
  /\ (Exists (fun x => f x = Raise ValueError) l ->
      comprehension f l = Raise ValueError).
Proof.
  intros Hf. induction l as [|x l [IH1 IH2]]; simpl.
  - split; [right; eauto | intros Hex; inversion Hex].
  - destruct (Hf x) as [Hx|[y Hx]]; rewrite Hx; simpl.
    + split; auto.
    + split.
      * destruct IH1 as [-> | [ys ->]]; simpl; eauto.
      * intros Hex. inversion Hex as [? ? Hbad|? ? Hrest]; subst.
        -- congruence.
        -- now rewrite (IH2 Hrest).
Qed.

Lemma float_cases (x : string) :
  float_ x = Raise ValueError \/ exists y, float_ x = Ok y.
Proof. unfold float_. destruct (py_float x); eauto. Qed.

Lemma index_cases (x : string) :
  (i <- int_ (before_slash x) ;; Ok (i - 1)%Z) = Raise ValueError \/
  exists y, (i <- int_ (before_slash x) ;; Ok (i - 1)%Z) = Ok y.
Proof. unfold int_. destruct (py_int (before_slash x)); simpl; eauto. Qed.

Lemma parse_vertex_cases (line : string) (vertices : list vertex) :
  parse_vertex line vertices = Raise ValueError \/
  exists vs, parse_vertex line vertices = Ok vs.
Proof.
  unfold parse_vertex.
  destruct (proj1 (comprehension_value_error _ _ float_ (tl (split line))
                     float_cases)) as [-> | [ys ->]]; simpl; eauto.
Qed.

Lemma parse_facet_cases (line : string) (facets : list facet) :
  parse_facet line facets = Raise ValueError \/
  exists fs, parse_facet line facets = Ok fs.
Proof.
  unfold parse_facet.
  destruct (proj1 (comprehension_value_error _ _ _ (tl (split line))
                     index_cases)) as [-> | [ys ->]]; simpl; eauto.
Qed.

Lemma malformed_raises (line : string) :
  loading.malformed line = true ->
  (startswith "v " line = true /\
   forall vertices, parse_vertex line vertices = Raise ValueError) \/
  (startswith "v " line = false /\ startswith "f " line = true /\
   forall facets, parse_facet line facets = Raise ValueError).
Proof.
  unfold loading.malformed. intros Hm.
  destruct (startswith "v " line); [left|right].
  - split; auto. intros vertices. unfold parse_vertex.
    rewrite (proj2 (comprehension_value_error _ _ float_ (tl (split line))
                      float_cases)); auto.
    apply existsb_exists in Hm. destruct Hm as (x & Hin & Hx).
    apply Exists_exists. exists x. split; auto.
    unfold float_. now destruct (py_float x).
  - destruct (startswith "f " line); [|discriminate].
    repeat split. intros facets. unfold parse_facet.
    rewrite (proj2 (comprehension_value_error _ _ _ (tl (split line))
                      index_cases)); auto.
    apply existsb_exists in Hm. destruct Hm as (x & Hin & Hx).
    apply Exists_exists. exists x. split; auto.
    unfold int_. now destruct (py_int (before_slash x)).
Qed.

(** One malformed line makes the whole scan of the file fail. *)
Lemma read_lines_malformed (lines : list string)
      (vertices : list vertex) (facets : list facet) :
  existsb loading.malformed lines = true ->
  read_lines lines vertices facets = Raise ValueError.
Proof.
  revert vertices facets.
  induction lines as [|line lines IH]; intros vertices facets Hex;
    [discriminate|].
  cbn [existsb] in Hex. apply orb_true_iff in Hex.
  cbn [read_lines].
  destruct Hex as [Hbad|Hrest].
  - destruct (malformed_raises line Hbad) as [[-> Hv]|(-> & -> & Hf)].
    + now rewrite Hv.
    + now rewrite Hf.
  - destruct (startswith "v " line).
    + destruct (parse_vertex_cases line vertices) as [-> | [vs ->]];
        simpl; auto.
    + destruct (startswith "f " line); auto.
      destruct (parse_facet_cases line facets) as [-> | [fs ->]];
        simpl; auto.
Qed.
End LoadingFacts.

(** C6.  If the mesh file has a malformed vertex or facet line, the
    load raises before [load_model] is reached: [main] is left with the
    scene exactly as it was created, with the vertices, facets and edges
    of the built-in cube; and whatever makes the reader fail, the scene
    is never left with part of a new mesh. *)
Theorem failed_load_keeps_mesh :
  forall (B : Builtins) (argv : list string)
         (files : string -> option (list string)) (rnd : nat -> Z),
    (forall lines,
        List.length argv = 2%nat ->
        files (nth 1 argv EmptyString) = Some lines ->
        existsb loading.malformed lines = true ->
        renderer.main_setup argv files rnd
        = (renderer.Scene_init renderer.WIDTH renderer.HEIGHT,
           Raise ValueError)) /\
    (forall e,
        snd (renderer.main_setup argv files rnd) = Raise e ->
        fst (renderer.main_setup argv files rnd)
        = renderer.Scene_init renderer.WIDTH renderer.HEIGHT).
Proof.
  intros B argv files rnd. split.
  - intros lines Hargv Hfile Hbad. unfold renderer.main_setup.
    rewrite Hargv, Hfile. cbn [Nat.eqb objreader.read].
    rewrite (read_lines_malformed lines [] [] Hbad). reflexivity.
  - intros e. unfold renderer.main_setup.
    destruct (List.length argv =? 2)%nat; [|discriminate].
    destruct (objreader.read _) as [[[vs fs] es]|e']; [discriminate|].
    reflexivity.
Qed.

(** C6 on a file whose only vertex line has a field that is not a
    number. *)
Lemma failed_load_keeps_mesh_witness :
  renderer.main_setup (H := loading.decimal_builtins)
    ["renderer.py"; "bad.obj"]%string
    (fun _ => Some ["v 1 2 x"; "f 1 1 1"]%string) (fun _ => 0%Z)
  = (renderer.Scene_init renderer.WIDTH renderer.HEIGHT, Raise ValueError).
Proof.
  apply (proj1 (failed_load_keeps_mesh loading.decimal_builtins
                  ["renderer.py"; "bad.obj"]%string
                  (fun _ => Some ["v 1 2 x"; "f 1 1 1"]%string)
                  (fun _ => 0%Z))
           ["v 1 2 x"; "f 1 1 1"]%string).
  - reflexivity.
  - reflexivity.
  - vm_compute. reflexivity.
Defined.

(* ------------------------------------------------------------------ *)
(** ** The colour of a filled facet *)

Section RenderFacts.
Import renderer.
Local Open Scope R_scope.

Lemma project_floor (s : Scene) (x y z : R) (n m : Z) :
  z <> 0 ->
  0 <= IZR n -> 0 <= IZR m ->
  IZR n <= IZR (camera_distortion s) * x / z + IZR (centre_x s) < IZR n + 1 ->
  IZR m <= IZR (camera_distortion s) * y / z + IZR (centre_y s) < IZR m + 1 ->
  project s (x, y, z) = ((n, m), z).
Proof.
  intros Hz Hn Hm Hx Hy. unfold project.
  rewrite (guard_depth_nonzero z Hz).
  now rewrite (int_of_float_floor _ n Hn Hx), (int_of_float_floor _ m Hm Hy).
Qed.

(** What follows the three indices of a facet, its own colour
    included, has no part in what is drawn for it. *)
Lemma draw_filled_indices (s : Scene) (point_list : list point)
      (i j k : Z) (rest : facet) :
  draw_filled s point_list (Idx i :: Idx j :: Idx k :: rest)
  = draw_filled s point_list [Idx i; Idx j; Idx k].
Proof.
  unfold draw_filled, at_facet.
  rewrite !(py_index_nth _ (Idx i :: Idx j :: Idx k :: rest) _ (Idx 0))
    by (cbn [List.length]; lia).
  reflexivity.
Qed.

Lemma triangle_scene_loaded :
  handle_key_event K_f
    (fst (main_setup (H := loading.decimal_builtins)
            ["renderer.py"; "triangle.obj"]%string
            (fun _ => Some loading.triangle_file) loading.red))
  = loading.triangle_scene.
Proof. vm_compute. reflexivity. Qed.

Lemma triangle_scene_points :
  comprehension (transform loading.triangle_scene) (vertices loading.triangle_scene)
  = Ok [((400, 300)%Z, 10); ((400, 351)%Z, 10); ((314, 342)%Z, 12)].
Proof.
  assert (Hr : camera_rotation loading.triangle_scene = (0, 0, 0)) by reflexivity.
  assert (Hp : camera_position loading.triangle_scene = (0, 0, -10)%Z)
    by reflexivity.
  assert (Hd : camera_distortion loading.triangle_scene = 512%Z)
    by reflexivity.
  assert (Hx : centre_x loading.triangle_scene = 400%Z) by reflexivity.
  assert (Hy : centre_y loading.triangle_scene = 300%Z) by reflexivity.
  change (vertices loading.triangle_scene)
    with [[0; 0; 0]; [0; 1; 0]; [2; 1; -2]].
  cbn [comprehension].
  rewrite !transform_triple, !(camera_space_zero_rotation _ _ _ _ Hr Hp).
  rewrite (project_floor loading.triangle_scene (- 0) 0 (10 - 0) 400 300);
    [|rewrite ?Hd, ?Hx, ?Hy; lra..].
  rewrite (project_floor loading.triangle_scene (- 0) 1 (10 - 0) 400 351);
    [|rewrite ?Hd, ?Hx, ?Hy; lra..].
  rewrite (project_floor loading.triangle_scene (Ropp 2) 1 (10 - -2) 314 342);
    [|rewrite ?Hd, ?Hx, ?Hy; lra..].
  cbn [bind].
  repeat f_equal; ring.
Qed.

Lemma triangle_intensity :
  shading.intensity (light_source loading.triangle_scene)
    (0, 0, 0) (0, 1, 0) (2, 1, -2) = 1 / 2.
Proof.
  unfold shading.intensity.
  change (light_source loading.triangle_scene)
    with (7 / 10, 7 / 10, - (7 / 10)).
  rewrite facing_example. unfold shading.clamped.
  rewrite Rmin_right, Rmax_right by lra. rewrite acos_0.
  pose proof PI_RGT_0. field. lra.
Qed.

Lemma triangle_shading (colour : rgb) :
  gouraud_shading loading.triangle_scene [0; 0; 0] [0; 1; 0] [2; 1; -2]
    colour
  = Ok (shading.scaled colour (1 / 2)).
Proof.
  change (gouraud_shading loading.triangle_scene (shading.vec (0, 0, 0))
            (shading.vec (0, 1, 0)) (shading.vec (2, 1, -2)) colour
          = Ok (shading.scaled colour (1 / 2))).
  rewrite gouraud_shading_scaled, triangle_intensity;
    [reflexivity | intros [= H]; lra..].
Qed.

Lemma triangle_order :
  painters_algorithm [10; 10; 12] (facets loading.triangle_scene)
  = Ok (facets loading.triangle_scene).
Proof. reflexivity. Qed.

Lemma triangle_scene_drawn :
  render_model loading.triangle_scene
  = (loading.triangle_scene,
     Ok [polygon (50, 127, 50)%Z
           [(400, 300)%Z; (400, 351)%Z; (314, 342)%Z] 0]).
Proof.
  unfold render_model.
  change (auto_rotate loading.triangle_scene) with loading.triangle_scene.
  rewrite triangle_scene_points. cbn [bind map fst snd].
  change (filled loading.triangle_scene) with true. cbv iota.
  rewrite triangle_order. cbn [bind].
  change (facets loading.triangle_scene)
    with [[Idx 0; Idx 1; Idx 2; Colour (255, 0, 0)%Z]].
  cbn [comprehension]. rewrite draw_filled_indices.
  unfold draw_filled.
  change (at_facet [(400, 300)%Z; (400, 351)%Z; (314, 342)%Z]
            [Idx 0; Idx 1; Idx 2] 0) with (Ok (400, 300)%Z).
  change (at_facet [(400, 300)%Z; (400, 351)%Z; (314, 342)%Z]
            [Idx 0; Idx 1; Idx 2] 1) with (Ok (400, 351)%Z).
  change (at_facet [(400, 300)%Z; (400, 351)%Z; (314, 342)%Z]
            [Idx 0; Idx 1; Idx 2] 2) with (Ok (314, 342)%Z).
  change (at_facet (vertices loading.triangle_scene) [Idx 0; Idx 1; Idx 2] 0)
    with (@Ok vertex [0; 0; 0]).
  change (at_facet (vertices loading.triangle_scene) [Idx 0; Idx 1; Idx 2] 1)
    with (@Ok vertex [0; 1; 0]).
  change (at_facet (vertices loading.triangle_scene) [Idx 0; Idx 1; Idx 2] 2)
    with (@Ok vertex [2; 1; -2]).
  cbn [bind]. rewrite triangle_shading.
  change (facet_colour loading.triangle_scene) with (100, 255, 100)%Z.
  rewrite (proj1 scaled_half_example). reflexivity.
Qed.
End RenderFacts.

(** C9 fails on the code.  The mesh file [loading.triangle_file] is
    loaded, its facet is given the colour (255,0,0) by
    [colorize_facets], and the fill key is pressed: the facet is drawn
    in (50,127,50), the shade of the scene-wide colour (100,255,100),
    where the shade of its own colour would be (127,0,0). *)
Theorem filled_facet_ignores_own_colour :
  let s := renderer.handle_key_event renderer.K_f
             (fst (renderer.main_setup (H := loading.decimal_builtins)
                     ["renderer.py"; "triangle.obj"]%string
                     (fun _ => Some loading.triangle_file) loading.red)) in
  renderer.filled s = true /\
  renderer.facets s
  = [[renderer.Idx 0; renderer.Idx 1; renderer.Idx 2;
      renderer.Colour (255, 0, 0)%Z]] /\
  snd (renderer.render_model s)
  = Ok [renderer.polygon (50, 127, 50)%Z
          [(400, 300)%Z; (400, 351)%Z; (314, 342)%Z] 0] /\
  renderer.gouraud_shading s [0; 0; 0]%R [0; 1; 0]%R [2; 1; -2]%R
    (renderer.facet_colour s) = Ok (50, 127, 50)%Z /\
  renderer.gouraud_shading s [0; 0; 0]%R [0; 1; 0]%R [2; 1; -2]%R
    (255, 0, 0)%Z = Ok (127, 0, 0)%Z.
Proof.
  intros s. subst s. rewrite triangle_scene_loaded.
  repeat apply conj.
  - reflexivity.
  - reflexivity.
  - now rewrite triangle_scene_drawn.
  - rewrite triangle_shading.
    change (renderer.facet_colour loading.triangle_scene)
      with (100, 255, 100)%Z.
    now rewrite (proj1 scaled_half_example).
  - rewrite triangle_shading. now rewrite (proj2 scaled_half_example).
Qed.

(* ------------------------------------------------------------------ *)
(** ** More on the mesh reader *)

Section ReaderFacts.
Context `{Builtins}.
Import objreader.

Lemma read_lines_app (l1 l2 : list string)
      (vertices : list vertex) (facets : list facet) :
  read_lines (l1 ++ l2) vertices facets
  = ('(vs, fs) <- read_lines l1 vertices facets ;; read_lines l2 vs fs).
Proof.
  revert vertices facets.
  induction l1 as [|line l1 IH]; intros vertices facets; [reflexivity|].
  cbn [app read_lines].
  destruct (startswith "v " line).
  - destruct (parse_vertex line vertices); cbn [bind]; auto.
  - destruct (startswith "f " line); auto.
    destruct (parse_facet line facets); cbn [bind]; auto.
Qed.

Lemma tag_exclusive (line : string) :
  startswith "v " line = true -> startswith "f " line = false.
Proof.
  unfold startswith. destruct line as [|c line]; [discriminate|].
  cbn [String.prefix].
  destruct (ascii_dec "v" c) as [<-|]; [|discriminate].
  intros _. now destruct (ascii_dec "f" "v").
Qed.

Lemma comprehension_length (A B : Type) (f : A -> result B)
      (l : list A) (ys : list B) :
  comprehension f l = Ok ys -> List.length ys = List.length l.
Proof.
  revert ys; induction l as [|x l IH]; intros ys; simpl.
  - now intros [= <-].
  - destruct (f x); [|discriminate]. simpl.
    destruct (comprehension f l) as [zs|]; [|discriminate]. simpl.
    intros [= <-]. simpl. f_equal. now apply IH.
Qed.

Lemma comprehension_ok (A B : Type) (f : A -> result B) (l : list A) :
  (forall x, In x l -> exists y, f x = Ok y) ->
  exists ys, comprehension f l = Ok ys.
Proof.
  induction l as [|x l IH]; intros Hf; simpl; eauto.
  destruct (Hf x (or_introl eq_refl)) as [y ->].
  destruct IH as [ys ->]; [intros z Hz; apply Hf; now right|].
  simpl. eauto.
Qed.

Lemma parse_vertex_ok (line : string) (vertices : list vertex) :
  startswith "v " line = true -> loading.malformed line = false ->
  exists v, parse_vertex line vertices = Ok (vertices ++ [v]) /\
            List.length v = List.length (tl (split line)).
Proof.
  intros Hv Hm. unfold loading.malformed in Hm. rewrite Hv in Hm.
  unfold parse_vertex.
  destruct (comprehension_ok _ _ float_ (tl (split line))) as [v Hcv].
  { intros x Hx. unfold float_.
    destruct (py_float x) eqn:E; eauto.
    assert (Hex : existsb (fun x => match py_float x with
                                    | None => true
                                    | Some _ => false
                                    end) (tl (split line)) = true).
    { apply existsb_exists. exists x. now rewrite E. }
    congruence. }
  rewrite Hcv. simpl. exists v. split; auto.
  now apply comprehension_length in Hcv.
Qed.

Lemma parse_facet_ok (line : string) (facets : list facet) :
  startswith "v " line = false -> startswith "f " line = true ->
  loading.malformed line = false ->
  exists f, parse_facet line facets = Ok (facets ++ [f]) /\
            List.length f = List.length (tl (split line)).
Proof.
  intros Hv Hf Hm. unfold loading.malformed in Hm. rewrite Hv, Hf in Hm.
  unfold parse_facet.
  destruct (comprehension_ok _ _
              (fun x => i <- int_ (before_slash x) ;; Ok (i - 1)%Z)
              (tl (split line))) as [f Hcf].
  { intros x Hx. unfold int_.
    destruct (py_int (before_slash x)) eqn:E; simpl; eauto.
    assert (Hex : existsb (fun x => match py_int (before_slash x) with
                                    | None => true
                                    | Some _ => false
                                    end) (tl (split line)) = true).
    { apply existsb_exists. exists x. now rewrite E. }
    congruence. }
  rewrite Hcf. simpl. exists f. split; auto.
  now apply comprehension_length in Hcf.
Qed.

(** Without a malformed line the scan succeeds; it appends one vertex
    per vertex line and one facet per facet line, each with as many
    entries as the line has fields behind its tag. *)
Lemma read_lines_ok (lines : list string)
      (vertices : list vertex) (facets : list facet) :
  existsb loading.malformed lines = false ->
  exists vs fs,
    read_lines lines vertices facets = Ok (vertices ++ vs, facets ++ fs) /\
    map (@List.length R) vs
    = map (fun l => List.length (tl (split l)))
          (filter (startswith "v ") lines) /\
    map (@List.length Z) fs
    = map (fun l => List.length (tl (split l)))
          (filter (startswith "f ") lines).
Proof.
  revert vertices facets.
  induction lines as [|line lines IH]; intros vertices facets Hm.
  - exists [], []. cbn. now rewrite !app_nil_r.
  - cbn [existsb] in Hm. apply orb_false_iff in Hm. destruct Hm as [Hl Hr].
    cbn [read_lines filter].
    destruct (startswith "v " line) eqn:Hv.
    + rewrite (tag_exclusive line Hv).
      destruct (parse_vertex_ok line vertices Hv Hl) as (v & -> & Hlen).
      cbn [bind].
      destruct (IH (vertices ++ [v]) facets Hr) as (vs & fs & -> & Hvs & Hfs).
      exists (v :: vs), fs. rewrite <- app_assoc. cbn [app map].
      now rewrite Hlen, Hvs, Hfs.
    + destruct (startswith "f " line) eqn:Hf.
      * destruct (parse_facet_ok line facets Hv Hf Hl) as (f & -> & Hlen).
        cbn [bind].
        destruct (IH vertices (facets ++ [f]) Hr) as (vs & fs & -> & Hvs & Hfs).
        exists vs, (f :: fs). rewrite <- app_assoc. cbn [app map].
        now rewrite Hlen, Hvs, Hfs.
      * apply IH, Hr.
Qed.

Lemma read_lines_raises (lines : list string)
      (vertices : list vertex) (facets : list facet) (e : pyerr) :
  read_lines lines vertices facets = Raise e ->
  e = ValueError /\ existsb loading.malformed lines = true.
Proof.
  intros Hr.
  destruct (existsb loading.malformed lines) eqn:Hm.
  - rewrite (read_lines_malformed lines vertices facets Hm) in Hr.
    injection Hr as <-. auto.
  - destruct (read_lines_ok lines vertices facets Hm) as (vs & fs & Hok & _).
    congruence.
Qed.

Lemma facet_edges_cases (edges : list edge) (f : facet) :
  ((3 <= List.length f)%nat /\ exists E, facet_edges edges f = Ok E) \/
  ((List.length f < 3)%nat /\ facet_edges edges f = Raise IndexError).
Proof.
  destruct (Nat.le_gt_cases 3 (List.length f)) as [Hl|Hl].
  - left. split; auto. rewrite (facet_edges_pairs edges f Hl). eauto.
  - right. split; auto. now apply facet_edges_short.
Qed.

Lemma edges_loop_cases (facets : list facet) (acc : list edge) :
  (Forall (fun f => (3 <= List.length f)%nat) facets /\
   exists E, edges_loop facets acc = Ok E) \/
  (Exists (fun f => (List.length f < 3)%nat) facets /\
   edges_loop facets acc = Raise IndexError).
Proof.
  revert acc. induction facets as [|f facets IH]; intros acc.
  - left. split; [constructor | simpl; eauto].
  - cbn [edges_loop].
    destruct (facet_edges_cases acc f) as [[Hl [E ->]]|[Hl ->]]; cbn [bind].
    + destruct (IH E) as [[Hall HE]|[Hex HE]].
      * left. split; [now constructor | exact HE].
      * right. split; [now apply Exists_cons_tl | exact HE].
    + right. split; [now apply Exists_cons_hd | reflexivity].
Qed.
End ReaderFacts.

(** X1.  [read] skips every line that starts neither with the vertex
    tag nor with the facet tag: the file with those lines removed reads
    to the same result, or raises the same exception. *)
Theorem read_ignores_other_lines :
  forall (B : Builtins) (lines : list string),
    objreader.read (Some lines)
    = objreader.read
        (Some (filter (fun l => startswith "v " l || startswith "f " l)
                      lines)).
Proof.
  intros B lines. unfold objreader.read.
  assert (Hl : forall vs fs,
             objreader.read_lines lines vs fs
             = objreader.read_lines
                 (filter (fun l => startswith "v " l || startswith "f " l)
                         lines) vs fs).
  { induction lines as [|line lines IH]; intros vs fs; [reflexivity|].
    cbn [filter objreader.read_lines].
    destruct (startswith "v " line) eqn:Hv; cbn [orb].
    - cbn [objreader.read_lines]. rewrite Hv.
      destruct (objreader.parse_vertex line vs); cbn [bind]; auto.
    - destruct (startswith "f " line) eqn:Hf; auto.
      cbn [objreader.read_lines]. rewrite Hv, Hf.
      destruct (objreader.parse_facet line fs); cbn [bind]; auto. }
  now rewrite Hl.
Qed.

(** X2.  When [read] succeeds, it returns one vertex per vertex line and
    one facet per facet line, in the order of the file, each with as
    many entries as its line has fields behind the tag (the number of
    fields of a vertex line is not checked); every facet has at least
    three indices and the edges are those derived from the facets. *)
Theorem read_result_shape :
  forall (B : Builtins) (lines : list string)
         (vs : list objreader.vertex) (fs : list objreader.facet)
         (es : list objreader.edge),
    objreader.read (Some lines) = Ok (vs, fs, es) ->
    map (@List.length R) vs
    = map (fun l => List.length (tl (split l)))
          (filter (startswith "v ") lines) /\
    map (@List.length Z) fs
    = map (fun l => List.length (tl (split l)))
          (filter (startswith "f ") lines) /\
    Forall (fun f => (3 <= List.length f)%nat) fs /\
    objreader.convert_facets_to_edges fs = Ok es.
Proof.
  intros B lines vs fs es Hr. unfold objreader.read in Hr.
  destruct (objreader.read_lines lines [] []) as [[vs' fs']|e] eqn:Hl;
    [|discriminate].
  cbn [bind] in Hr.
  destruct (objreader.convert_facets_to_edges fs') as [es'|e] eqn:Hc;
    [|discriminate].
  cbn [bind] in Hr. injection Hr as <- <- <-.
  destruct (existsb loading.malformed lines) eqn:Hm.
  { rewrite (read_lines_malformed lines [] [] Hm) in Hl. discriminate. }
  destruct (read_lines_ok lines [] [] Hm) as (vs & fs & Hok & Hvs & Hfs).
  rewrite Hl in Hok. injection Hok as -> ->.
  repeat apply conj; auto.
  unfold objreader.convert_facets_to_edges in Hc.
  destruct (edges_loop_cases fs []) as [[Hall _]|[_ He]]; [exact Hall|].
  congruence.
Qed.

(** X2 on the triangle file. *)
Lemma read_result_shape_witness :
  map (@List.length R) [[0; 0; 0]; [0; 1; 0]; [2; 1; -2]]%R
  = map (fun l => List.length (tl (split l)))
        (filter (startswith "v ") loading.triangle_file) /\
  map (@List.length Z) [[0; 1; 2]%Z]
  = map (fun l => List.length (tl (split l)))
        (filter (startswith "f ") loading.triangle_file) /\
  Forall (fun f => (3 <= List.length f)%nat) [[0; 1; 2]%Z] /\
  objreader.convert_facets_to_edges [[0; 1; 2]%Z]
  = Ok [(0, 1); (1, 2); (0, 2)]%Z.
Proof.
  apply (read_result_shape loading.decimal_builtins loading.triangle_file).
  vm_compute. reflexivity.
Defined.

(** X3.  The exceptions of [read]: [IOError] exactly when the file is
    missing; [ValueError] exactly when some vertex line has a field
    that is not a float or some facet line an index that is not an
    integer; [IndexError] exactly when every line parses and some facet
    line has fewer than three indices; and no other exception. *)
Theorem read_exceptions :
  forall (B : Builtins),
    (forall file, objreader.read file = Raise IOError <-> file = None) /\
    (forall lines,
        objreader.read (Some lines) = Raise ValueError
        <-> existsb loading.malformed lines = true) /\
    (forall lines,
        objreader.read (Some lines) = Raise IndexError
        <-> existsb loading.malformed lines = false /\
            Exists (fun n => (n < 3)%nat)
              (map (fun l => List.length (tl (split l)))
                   (filter (startswith "f ") lines))) /\
    (forall file e,
        objreader.read file = Raise e ->
        e = IOError \/ e = ValueError \/ e = IndexError).
Proof.
  intros B.
  assert (Hread : forall lines,
             (existsb loading.malformed lines = true /\
              objreader.read (Some lines) = Raise ValueError) \/
             (existsb loading.malformed lines = false /\
              exists vs fs,
                map (@List.length Z) fs
                = map (fun l => List.length (tl (split l)))
                      (filter (startswith "f ") lines) /\
                ((Forall (fun f => (3 <= List.length f)%nat) fs /\
                  exists es, objreader.read (Some lines) = Ok (vs, fs, es)) \/
                 (Exists (fun f => (List.length f < 3)%nat) fs /\
                  objreader.read (Some lines) = Raise IndexError)))).
  { intros lines. unfold objreader.read.
    destruct (existsb loading.malformed lines) eqn:Hm.
    - left. now rewrite (read_lines_malformed lines [] [] Hm).
    - right. split; auto.
      destruct (read_lines_ok lines [] [] Hm) as (vs & fs & -> & _ & Hfs).
      exists vs, fs. split; auto. cbn [bind app].
      unfold objreader.convert_facets_to_edges.
      destruct (edges_loop_cases fs []) as [[Hall [es ->]]|[Hex ->]];
        cbn [bind]; eauto. }
  assert (Hshort : forall fs : list objreader.facet,
             Exists (fun f => (List.length f < 3)%nat) fs
             <-> Exists (fun n => (n < 3)%nat) (map (@List.length Z) fs)).
  { intros fs. now rewrite Exists_map. }
  assert (Hlong : forall fs : list objreader.facet,
             Forall (fun f => (3 <= List.length f)%nat) fs ->
             ~ Exists (fun f => (List.length f < 3)%nat) fs).
  { intros fs Hall Hex. rewrite Forall_forall in Hall.
    apply Exists_exists in Hex. destruct Hex as (f & Hin & Hlt).
    specialize (Hall f Hin). lia. }
  repeat apply conj.
  - intros [lines|]; [|split; reflexivity].
    split; [|discriminate].
    destruct (Hread lines) as [[_ Hr]|(_ & vs & fs & _ & [[_ [es Hr]]|[_ Hr]])];
      rewrite Hr; discriminate.
  - intros lines.
    destruct (Hread lines) as [[Hm Hr]|(Hm & vs & fs & _ & [[_ [es Hr]]|[_ Hr]])];
      rewrite Hr, Hm; split; auto; discriminate.
  - intros lines.
    destruct (Hread lines)
      as [[Hm Hr]|(Hm & vs & fs & Hfs & [[Hall [es Hr]]|[Hex Hr]])];
      rewrite Hr, Hm.
    + split; [discriminate | intros [[=] _]].
    + split; [discriminate|]. intros [_ Hex]. exfalso.
      rewrite <- Hfs in Hex. apply Hshort in Hex. now apply (Hlong fs).
    + split; auto. intros _. split; auto.
      rewrite <- Hfs. now apply Hshort.
  - intros [lines|] e; [|intros [= <-]; auto].
    destruct (Hread lines) as [[_ Hr]|(_ & vs & fs & _ & [[_ [es Hr]]|[_ Hr]])];
      rewrite Hr; intros [= <-]; auto.
Qed.

(** X3 on a file with a vertex line that has a field that is not a
    number, and on a file with a facet line of two indices. *)
Lemma read_exceptions_witness :
  objreader.read (H := loading.decimal_builtins)
    (Some ["v 1 2 x"; "f 1 1 1"]%string) = Raise ValueError /\
  objreader.read (H := loading.decimal_builtins)
    (Some ["v 1 2 3"; "f 1 1"]%string) = Raise IndexError.
Proof.
  split.
  - apply (proj2 (proj1 (proj2 (read_exceptions loading.decimal_builtins))
                    ["v 1 2 x"; "f 1 1 1"]%string)).
    vm_compute. reflexivity.
  - apply (proj2 (proj1 (proj2 (proj2
                   (read_exceptions loading.decimal_builtins)))
                    ["v 1 2 3"; "f 1 1"]%string)).
    split; [vm_compute; reflexivity|].
    vm_compute. apply Exists_cons_hd. vm_compute. lia.
Defined.

(* ------------------------------------------------------------------ *)
(** ** More on the derived edges *)

Section MoreEdgeFacts.
Import objreader.

Lemma convert_ok_first_seen (F : list facet) (E : list edge) :
  convert_facets_to_edges F = Ok E ->
  Forall (fun f => (3 <= List.length f)%nat) F /\
  E = spec.first_seen (flat_map spec.facet_pairs F).
Proof.
  unfold convert_facets_to_edges. intros Hc.
  destruct (edges_loop_cases F []) as [[Hall _]|[_ He]]; [|congruence].
  split; auto.
  rewrite (edges_loop_pairs F [] Hall), append_new_first_seen in Hc.
  injection Hc as <-. cbn [app]. f_equal.
  induction (flat_map spec.facet_pairs F) as [|x l IH]; simpl; congruence.
Qed.

Lemma sorted2_diagonal (a b : Z) :
  fst (sorted2 a b) = snd (sorted2 a b) <-> a = b.
Proof. unfold sorted2. destruct (Z.ltb_spec b a); simpl; lia. Qed.

Lemma not_edge_in (e : edge) (l : list edge) :
  negb (edge_in e l) = true <-> ~ In e l.
Proof.
  rewrite negb_true_iff, <- edge_in_In.
  destruct (edge_in e l); split; auto; try discriminate.
  intros Hn. now contradiction Hn.
Qed.
End MoreEdgeFacts.

(** X4.  When [convert_facets_to_edges] succeeds, the edges are exactly
    the sorted pairs of the facets: a pair is in the result if and only
    if it is one of the three pairs of some facet.  A facet that
    repeats a vertex index is not rejected: the result has an edge
    from a vertex to itself exactly when some facet repeats one of its
    three indices. *)
Theorem edges_are_facet_sides :
  forall (F : list objreader.facet) (E : list objreader.edge),
    objreader.convert_facets_to_edges F = Ok E ->
    (forall e, In e E <-> exists f, In f F /\ In e (spec.facet_pairs f)) /\
    ((exists a, In (a, a) E)
     <-> Exists (fun f => nth 0 f 0%Z = nth 1 f 0%Z \/
                          nth 1 f 0%Z = nth 2 f 0%Z \/
                          nth 0 f 0%Z = nth 2 f 0%Z) F).
Proof.
  intros F E Hc. destruct (convert_ok_first_seen F E Hc) as [_ ->].
  assert (Hin : forall e,
             In e (spec.first_seen (flat_map spec.facet_pairs F))
             <-> exists f, In f F /\ In e (spec.facet_pairs f)).
  { intros e. rewrite first_seen_In. apply in_flat_map. }
  split; [exact Hin|].
  rewrite Exists_exists. split.
  - intros [a Ha]. apply Hin in Ha. destruct Ha as (f & Hf & Ha).
    exists f. split; auto.
    unfold spec.facet_pairs in Ha. cbn [In] in Ha.
    destruct Ha as [Ha|[Ha|[Ha|[]]]];
      [left | right; left | right; right];
      apply sorted2_diagonal; now rewrite Ha.
  - intros (f & Hf & Hrep).
    assert (Hd : forall a b, a = b ->
                 objreader.sorted2 a b = (a, a)).
    { intros a b <-. unfold objreader.sorted2.
      now rewrite Z.ltb_irrefl. }
    destruct Hrep as [Hrep|[Hrep|Hrep]].
    + exists (nth 0 f 0%Z). apply Hin. exists f. split; auto.
      unfold spec.facet_pairs. left. now apply Hd.
    + exists (nth 1 f 0%Z). apply Hin. exists f. split; auto.
      unfold spec.facet_pairs. right; left. now apply Hd.
    + exists (nth 0 f 0%Z). apply Hin. exists f. split; auto.
      unfold spec.facet_pairs. right; right; left. now apply Hd.
Qed.

(** X4 on the cube. *)
Lemma edges_are_facet_sides_witness :
  let E := [(0, 1); (1, 2); (0, 2); (2, 3); (0, 3); (1, 5); (5, 6); (1, 6);
            (2, 6); (4, 5); (4, 7); (5, 7); (6, 7); (0, 4); (3, 4); (3, 7);
            (3, 6); (0, 5)]%Z in
  (forall e, In e E
             <-> exists f, In f spec.cube_facets /\ In e (spec.facet_pairs f)) /\
  ((exists a, In (a, a) E)
   <-> Exists (fun f => nth 0 f 0%Z = nth 1 f 0%Z \/
                        nth 1 f 0%Z = nth 2 f 0%Z \/
                        nth 0 f 0%Z = nth 2 f 0%Z) spec.cube_facets).
Proof.
  apply (edges_are_facet_sides spec.cube_facets).
  vm_compute. reflexivity.
Defined.

(** X5.  Facets added at the end of the list never remove or reorder
    the edges derived so far: the edges of [F ++ G] are the edges of
    [F] followed by the pairs of [G] that [F] does not have; so a
    facet listed again, or a facet whose three sides are already there,
    adds no edge. *)
Theorem edges_of_appended_facets :
  forall (F G : list objreader.facet) (E : list objreader.edge),
    objreader.convert_facets_to_edges F = Ok E ->
    Forall (fun f => (3 <= List.length f)%nat) G ->
    exists E',
      objreader.convert_facets_to_edges (F ++ G) = Ok (E ++ E') /\
      (forall e, In e E'
                 <-> In e (flat_map spec.facet_pairs G) /\ ~ In e E) /\
      ((forall e, In e (flat_map spec.facet_pairs G) -> In e E) -> E' = []) /\
      objreader.convert_facets_to_edges (F ++ F) = Ok E.
Proof.
  intros F G E Hc HG.
  destruct (convert_ok_first_seen F E Hc) as [HF HE].
  assert (Happ : forall G',
             Forall (fun f => (3 <= List.length f)%nat) G' ->
             objreader.convert_facets_to_edges (F ++ G')
             = Ok (E ++ spec.first_seen
                          (filter (fun e => negb (objreader.edge_in e E))
                                  (flat_map spec.facet_pairs G')))).
  { intros G' HG'. unfold objreader.convert_facets_to_edges in *.
    rewrite (edges_loop_pairs (F ++ G') []) by (apply Forall_app; auto).
    rewrite flat_map_app, fold_left_app.
    rewrite (edges_loop_pairs F [] HF) in Hc. injection Hc as ->.
    now rewrite append_new_first_seen. }
  assert (Hnone : forall l,
             (forall e, In e l -> In e E) ->
             filter (fun e => negb (objreader.edge_in e E)) l = []).
  { intros l Hl. induction l as [|x l IH]; auto. cbn [filter].
    rewrite (proj2 (edge_in_In x E)) by (apply Hl; now left).
    cbn [negb]. apply IH. intros e He. apply Hl. now right. }
  exists (spec.first_seen
            (filter (fun e => negb (objreader.edge_in e E))
                    (flat_map spec.facet_pairs G))).
  repeat apply conj.
  - now apply Happ.
  - intros e. rewrite first_seen_In, filter_In, not_edge_in. tauto.
  - intros Hall. now rewrite (Hnone _ Hall).
  - rewrite (Happ F HF), Hnone; [now rewrite app_nil_r|].
    intros e He. rewrite HE. now apply first_seen_In.
Qed.

(** X5 on the cube, with two of its facets listed again. *)
Lemma edges_of_appended_facets_witness :
  exists E',
    objreader.convert_facets_to_edges
      (spec.cube_facets ++ [[2; 1; 0]; [5; 0; 4]]%Z)
    = Ok ([(0, 1); (1, 2); (0, 2); (2, 3); (0, 3); (1, 5); (5, 6); (1, 6);
           (2, 6); (4, 5); (4, 7); (5, 7); (6, 7); (0, 4); (3, 4); (3, 7);
           (3, 6); (0, 5)]%Z ++ E') /\
    (forall e, In e E'
               <-> In e (flat_map spec.facet_pairs [[2; 1; 0]; [5; 0; 4]]%Z) /\
                   ~ In e [(0, 1); (1, 2); (0, 2); (2, 3); (0, 3); (1, 5);
                           (5, 6); (1, 6); (2, 6); (4, 5); (4, 7); (5, 7);
                           (6, 7); (0, 4); (3, 4); (3, 7); (3, 6);
                           (0, 5)]%Z) /\
    ((forall e, In e (flat_map spec.facet_pairs [[2; 1; 0]; [5; 0; 4]]%Z) ->
                In e [(0, 1); (1, 2); (0, 2); (2, 3); (0, 3); (1, 5);
                      (5, 6); (1, 6); (2, 6); (4, 5); (4, 7); (5, 7);
                      (6, 7); (0, 4); (3, 4); (3, 7); (3, 6); (0, 5)]%Z) ->
     E' = []) /\
    objreader.convert_facets_to_edges (spec.cube_facets ++ spec.cube_facets)
    = Ok [(0, 1); (1, 2); (0, 2); (2, 3); (0, 3); (1, 5); (5, 6); (1, 6);
          (2, 6); (4, 5); (4, 7); (5, 7); (6, 7); (0, 4); (3, 4); (3, 7);
          (3, 6); (0, 5)]%Z.
Proof.
  apply (edges_of_appended_facets spec.cube_facets [[2; 1; 0]; [5; 0; 4]]%Z).
  - vm_compute. reflexivity.
  - repeat constructor.
Defined.

(* ------------------------------------------------------------------ *)
(** ** More on the input handlers *)

Section InputFacts.
Import renderer camera.

Lemma set_camera_position_same (s : Scene) :
  set_camera_position s (camera_position s) = s.
Proof. now destruct s. Qed.

Lemma set_camera_position_twice (s : Scene) (p q : Z * Z * Z) :
  set_camera_position (set_camera_position s p) q = set_camera_position s q.
Proof. reflexivity. Qed.

Lemma handle_key_event_unfold (key : Z) (s : Scene) :
  handle_key_event key s
  = let s1 := if (key =? K_r)%Z then set_rotating s (negb (rotating s))
              else s in
    let s2 := if (key =? K_f)%Z then set_filled s1 (negb (filled s1))
              else s1 in
    if (key =? K_b)%Z then
      set_camera_rotation
        (set_camera_position s2 (X s2, Y s2, (-10)%Z)) (0, 0, 0)%R
    else s2.
Proof.
  unfold handle_key_event, X, Y. cbv zeta.
  destruct (key =? K_b)%Z; auto.
  match goal with
  | |- context [camera_position ?t] =>
      now destruct (camera_position t) as [[x y] z]
  end.
Qed.

Lemma handle_event_Z (e : event) (s : Scene) :
  (Z_ s <= 0)%Z -> (Z_ (fst (handle_event e s)) <= 0)%Z.
Proof.
  intros Hz. destruct e; simpl; auto.
  - rewrite handle_key_event_Z. destruct (key =? K_b)%Z; lia.
  - rewrite handle_mouse_event_Z.
    destruct (button =? 4)%Z;
      [destruct (Z.ltb_spec (Z_ s) 0) | destruct (button =? 5)%Z]; lia.
  - unfold Z_. now rewrite handle_mouse_motion_position.
Qed.

Lemma handle_events_Z (events : list event) (s : Scene) :
  (Z_ s <= 0)%Z -> (Z_ (fst (handle_events events s)) <= 0)%Z.
Proof.
  revert s; induction events as [|e events IH]; intros s Hz; simpl; auto.
  pose proof (handle_event_Z e s Hz) as He.
  destruct (handle_event e s) as [s' [|]]; simpl in *; auto.
Qed.

Lemma main_loop_Z (inputs : list (list event * Q)) (st : Scene * Globals) :
  (Z_ (fst st) <= 0)%Z -> (Z_ (fst (fst (main_loop inputs st))) <= 0)%Z.
Proof.
  revert st; induction inputs as [|[events t] inputs IH]; intros st Hz;
    [simpl; auto|].
  cbn [main_loop].
  pose proof (handle_events_Z events (fst st) Hz) as He.
  destruct (handle_events events (fst st)) as [s [|]];
    cbn [fst snd] in *; auto.
  pose proof (render_loop_position (s, snd st) t) as Hp.
  destruct (render_loop (s, snd st) t) as [st' [drawn|e]];
    cbn [fst snd] in *.
  - apply IH. unfold Z_ in *. now rewrite Hp.
  - unfold Z_ in *. now rewrite Hp.
Qed.
End InputFacts.



(** X7.  One notch down followed by one notch up brings the scene back
    whenever the camera Z position is not positive.  (One notch up
    followed by one notch down does so only while Z is negative: at
    Z = 0 the notch up does nothing and the notch down leaves -1.) *)
Theorem wheel_down_up :
  forall (s : renderer.Scene),
    (camera.Z_ s <= 0)%Z ->
    renderer.handle_mouse_event 4 (renderer.handle_mouse_event 5 s) = s /\
    (renderer.handle_mouse_event 5 (renderer.handle_mouse_event 4 s) = s
     <-> (camera.Z_ s < 0)%Z).
Proof.
  intros s Hz. unfold camera.Z_ in *.
  unfold renderer.handle_mouse_event. cbn [Z.eqb Pos.eqb].
  destruct (renderer.camera_position s) as [[x y] z] eqn:E.
  cbn [renderer.camera_position renderer.set_camera_position snd] in *.
  replace (z - 1 <? 0)%Z with true by (symmetry; apply Z.ltb_lt; lia).
  split.
  - rewrite set_camera_position_twice.
    replace (z - 1 + 1)%Z with z by lia.
    rewrite <- E. apply set_camera_position_same.
  - destruct (Z.ltb_spec z 0) as [Hneg|Hpos].
    + cbn [renderer.camera_position renderer.set_camera_position].
      rewrite set_camera_position_twice.
      replace (z + 1 - 1)%Z with z by lia.
      rewrite <- E, set_camera_position_same. tauto.
    + rewrite E. split; [|lia]. intros Heq.
      apply (f_equal renderer.camera_position) in Heq.
      cbn [renderer.camera_position renderer.set_camera_position] in Heq.
      rewrite E in Heq. injection Heq as Heq. lia.
Qed.

(** X7 on the initial scene. *)
Lemma wheel_down_up_witness :
  let s := renderer.Scene_init renderer.WIDTH renderer.HEIGHT in
  renderer.handle_mouse_event 4 (renderer.handle_mouse_event 5 s) = s /\
  (renderer.handle_mouse_event 5 (renderer.handle_mouse_event 4 s) = s
   <-> (camera.Z_ s < 0)%Z).
Proof.
  intros s. apply (wheel_down_up s). vm_compute. discriminate.
Defined.

(** X8.  Through the whole run of [main], whatever the mesh file, the
    events and the frame times, the camera Z position is never
    positive: the wheel stops at 0 and the reset key writes -10. *)
Theorem camera_z_never_positive :
  forall (B : Builtins) (argv : list string)
         (files : string -> option (list string)) (rnd : nat -> Z)
         (inputs : list (list renderer.event * Q)),
    let scene := fst (renderer.main_setup argv files rnd) in
    (camera.Z_ (fst (fst (renderer.main_loop inputs
                            (scene, renderer.globals0)))) <= 0)%Z.
Proof.
  intros B argv files rnd inputs scene. apply main_loop_Z.
  subst scene. unfold renderer.main_setup. cbn [fst].
  destruct (List.length argv =? 2)%nat; [|vm_compute; discriminate].
  destruct (objreader.read _) as [[[vs fs] es]|e]; vm_compute; discriminate.
Qed.

Section FrameFacts.
Import renderer.
Local Open Scope R_scope.

Lemma auto_rotate_rest (s : Scene) :
  rotating (auto_rotate s) = rotating s /\
  filled (auto_rotate s) = filled s /\
  frames.mesh (auto_rotate s) = frames.mesh s /\
  frames.fixed (auto_rotate s) = frames.fixed s.
Proof.
  unfold auto_rotate.
  destruct (rotating s) eqn:E, (camera_rotation s) as [[r0 r1] r2];
    cbn; auto.
Qed.

Lemma handle_event_rest (e : event) (s : Scene) :
  frames.mesh (fst (handle_event e s)) = frames.mesh s /\
  frames.fixed (fst (handle_event e s)) = frames.fixed s.
Proof.
  destruct e; cbn [handle_event fst]; auto.
  - rewrite handle_key_event_unfold. cbv zeta.
    destruct (key =? K_r)%Z, (key =? K_f)%Z, (key =? K_b)%Z; auto.
  - unfold handle_mouse_event.
    destruct (camera_position s) as [[x y] z] eqn:E.
    destruct (button =? 4)%Z; [destruct (z <? 0)%Z|];
      cbn [camera_position set_camera_position]; rewrite ?E;
      destruct (button =? 5)%Z; auto.
  - unfold handle_mouse_motion.
    destruct (camera_rotation s) as [[r0 r1] r2] eqn:E.
    destruct left, right;
      cbn [camera_rotation set_camera_rotation]; rewrite ?E; auto.
Qed.

Lemma handle_events_rest (events : list event) (s : Scene) :
  frames.mesh (fst (handle_events events s)) = frames.mesh s /\
  frames.fixed (fst (handle_events events s)) = frames.fixed s.
Proof.
  revert s; induction events as [|e events IH]; intros s; simpl; auto.
  pose proof (handle_event_rest e s) as [Hm Hf].
  destruct (handle_event e s) as [s' [|]]; cbn [fst] in *.
  - destruct (IH s') as [Hm' Hf']. split; congruence.
  - auto.
Qed.

Lemma render_loop_rest (st : Scene * Globals) (t : Q) :
  frames.mesh (fst (fst (render_loop st t))) = frames.mesh (fst st) /\
  frames.fixed (fst (fst (render_loop st t))) = frames.fixed (fst st).
Proof.
  destruct st as [s g]. unfold render_loop.
  destruct (render_model s) as [s' r] eqn:E.
  unfold render_model in E. injection E as <- _.
  pose proof (auto_rotate_rest s) as (_ & _ & Hm & Hf).
  destruct r; cbn [fst]; auto.
Qed.

Lemma main_loop_rest (inputs : list (list event * Q)) (st : Scene * Globals) :
  frames.mesh (fst (fst (main_loop inputs st))) = frames.mesh (fst st) /\
  frames.fixed (fst (fst (main_loop inputs st))) = frames.fixed (fst st).
Proof.
  revert st; induction inputs as [|[events t] inputs IH]; intros st;
    [simpl; auto|].
  cbn [main_loop].
  pose proof (handle_events_rest events (fst st)) as [Hm Hf].
  destruct (handle_events events (fst st)) as [s [|]];
    cbn [fst snd] in *; auto.
  pose proof (render_loop_rest (s, snd st) t) as [Hm' Hf'].
  destruct (render_loop (s, snd st) t) as [st' [drawn|e]];
    cbn [fst snd] in *.
  - destruct (IH st') as [Hm'' Hf'']. split; congruence.
  - split; congruence.
Qed.
End FrameFacts.

(** X9.  Once [main] has set the scene up, nothing replaces the mesh or
    touches the light direction, the distortion factor, the screen
    centre or the colours: at the end of any run, however it ends, the
    vertices, facets and edges and those attributes are the ones the
    loop started with.  Events and frames change the camera position,
    the rotation and the two flags only. *)
Theorem main_loop_keeps_mesh :
  forall (inputs : list (list renderer.event * Q))
         (s : renderer.Scene) (g : renderer.Globals),
    let final := fst (fst (renderer.main_loop inputs (s, g))) in
    renderer.vertices final = renderer.vertices s /\
    renderer.facets final = renderer.facets s /\
    renderer.edges final = renderer.edges s /\
    renderer.light_source final = renderer.light_source s /\
    renderer.camera_distortion final = renderer.camera_distortion s /\
    renderer.centre_x final = renderer.centre_x s /\
    renderer.centre_y final = renderer.centre_y s /\
    renderer.facet_colour final = renderer.facet_colour s /\
    renderer.line_colour final = renderer.line_colour s.
Proof.
  intros inputs s g final.
  destruct (main_loop_rest inputs (s, g)) as [Hm Hf].
  fold final in Hm, Hf. cbn [fst] in Hm, Hf.
  unfold frames.mesh in Hm. unfold frames.fixed in Hf.
  injection Hm as Hv Hfa He.
  injection Hf as _ _ Hcx Hcy Hd Hl _ Hlc Hfc.
  repeat apply conj; assumption.
Qed.

(* ------------------------------------------------------------------ *)
(** ** More on the transform *)

(** X17.  With the first two angles zero and the camera on the Z axis,
    a vertex on the Z axis is drawn at the screen centre whatever the
    third angle and the camera distance are: rolling and zooming keep
    the centre of the picture fixed. *)
Theorem axis_stays_centred :
  forall (s : renderer.Scene) (r2 z : R) (cz : Z),
    renderer.camera_rotation s = (0, 0, r2)%R ->
    renderer.camera_position s = (0, 0, cz)%Z ->
    renderer.transform s [0; 0; z]%R
    = Ok ((renderer.centre_x s, renderer.centre_y s),
          renderer.guard_depth (- z - IZR cz)).
Proof.
  intros s r2 z cz Hr Hp.
  rewrite transform_triple.
  assert (Hc : renderer.translate s (renderer.rotate s (0, 0, z)%R)
               = (0, 0, - z - IZR cz)%R).
  { unfold renderer.rotate, renderer.translate. rewrite Hr, Hp.
    unfold renderer.rotate_0, renderer.rotate_1, renderer.rotate_2.
    rewrite sin_0, cos_0. apply triple_eq; ring. }
  rewrite Hc. f_equal. apply project_on_axis.
Qed.

(** X17 for the initial scene rolled by one radian and zoomed in by
    three notches. *)
Lemma axis_stays_centred_witness :
  let s := renderer.set_camera_position
             (renderer.set_camera_rotation
                (renderer.Scene_init renderer.WIDTH renderer.HEIGHT)
                (0, 0, 1)%R)
             (0, 0, -7)%Z in
  renderer.transform s [0; 0; 1]%R
  = Ok ((renderer.centre_x s, renderer.centre_y s),
        renderer.guard_depth (- 1 - IZR (-7))).
Proof.
  intros s. apply (axis_stays_centred s 1 1 (-7)); reflexivity.
Defined.

(* ------------------------------------------------------------------ *)
(** ** More on the painter's algorithm *)

Section MorePainterFacts.
Import renderer.
Local Open Scope R_scope.

Lemma py_index_cases (X : Type) (l : list X) (i : Z) :
  ((- Z.of_nat (List.length l) <= i < Z.of_nat (List.length l))%Z /\
   exists a, py_index l i = Ok a) \/
  (~ (- Z.of_nat (List.length l) <= i < Z.of_nat (List.length l))%Z /\
   py_index l i = Raise IndexError).
Proof.
  unfold py_index.
  destruct (Z.ltb_spec i 0) as [Hneg|Hpos];
    match goal with
    | |- context [(0 <=? ?j)%Z] => destruct (Z.leb_spec 0 j)
    end;
    match goal with
    | |- context [(?j <? ?n)%Z] => destruct (Z.ltb_spec j n)
    end; cbn [andb]; try (right; split; [lia | reflexivity]).
  - left. split; [lia|].
    destruct (nth_error l (Z.to_nat (i + Z.of_nat (List.length l)))) eqn:E;
      eauto.
    apply nth_error_None in E. lia.
  - left. split; [lia|].
    destruct (nth_error l (Z.to_nat i)) eqn:E; eauto.
    apply nth_error_None in E. lia.
Qed.

Lemma depth_at_cases (depths : list R) (x : item) :
  (sorter.readable (List.length depths) x = true /\
   exists d, depth_at depths x = Ok d) \/
  (sorter.readable (List.length depths) x = false /\
   (depth_at depths x = Raise IndexError \/
    depth_at depths x = Raise TypeError)).
Proof.
  destruct x as [i|c]; cbn [depth_at sorter.readable]; [|right; auto].
  destruct (py_index_cases _ depths i) as [[Hi [d ->]]|[Hi ->]].
  - left. split; eauto.
    apply andb_true_iff. rewrite Z.leb_le, Z.ltb_lt. lia.
  - right. split; auto.
    apply andb_false_iff. rewrite Z.leb_gt, Z.ltb_ge. lia.
Qed.

Lemma comprehension_cases (X Y : Type) (f : X -> result Y) (l : list X) :
  ((forall x, In x l -> exists y, f x = Ok y) /\
   exists ys, comprehension f l = Ok ys) \/
  (exists x e, In x l /\ f x = Raise e /\ comprehension f l = Raise e).
Proof.
  induction l as [|x l IH].
  - left. split; [intros x [] | cbn; eauto].
  - cbn [comprehension]. destruct (f x) as [y|e] eqn:Ex; cbn [bind].
    + destruct IH as [[Hall [ys ->]]|(z & e & Hz & Hfz & ->)]; cbn [bind].
      * left. split; eauto.
        intros z [<-|Hz]; eauto.
      * right. exists z, e. repeat split; auto. now right.
    + right. exists x, e. repeat split; auto. now left.
Qed.

Lemma avg_depth_cases (depths : list R) (f : facet) :
  (sorter.accepted (List.length depths) f = true /\
   exists k, avg_depth depths f = Ok k) \/
  (sorter.accepted (List.length depths) f = false /\
   (avg_depth depths f = Raise IndexError \/
    avg_depth depths f = Raise TypeError)).
Proof.
  unfold avg_depth, sorter.accepted.
  destruct (comprehension_cases _ _ (depth_at depths) (firstn 3 f))
    as [[Hall [ds ->]]|(x & e & Hx & Hfx & ->)]; cbn [bind].
  - left. split; eauto. apply forallb_forall. intros x Hx.
    destruct (depth_at_cases depths x) as [[Hr _]|[_ [He|He]]]; auto;
      destruct (Hall x Hx) as [d Hd]; congruence.
  - right.
    destruct (depth_at_cases depths x) as [[_ [d Hd]]|[Hr He]];
      [congruence|].
    split.
    + destruct (forallb _ _) eqn:E; auto.
      rewrite forallb_forall in E. specialize (E x Hx). congruence.
    + destruct He as [He|He]; rewrite He in Hfx; injection Hfx as <-; auto.
Qed.
End MorePainterFacts.

(** X22.  Fixed points of the depth sorter, on facets of the data
    model.  When the keys of all facets compare equal the sorter
    returns the facet list as it is; and sorting is idempotent when no
    key is NaN: the sorter applied to its own result returns that
    result.  The keys are the doubles the code computes. *)
Theorem painters_algorithm_fixed_points :
  forall (depths : list PrimFloat.float) (facets : list renderer.facet),
    forallb (depth.well_formed (List.length depths)) facets = true ->
    ((forall f g, In f facets -> In g facets ->
                  PrimFloat.eqb (depth64.key depths f)
                    (depth64.key depths g) = true) ->
     binary64.painters_algorithm depths facets = Ok facets) /\
    (forallb (fun f => depth64.number (depth64.key depths f)) facets = true ->
     exists ordered,
       binary64.painters_algorithm depths facets = Ok ordered /\
       binary64.painters_algorithm depths ordered = Ok ordered).
Proof.
  intros depths facets Hwf. split.
  - intros Htie. rewrite (painters_algorithm_keyed depths facets Hwf).
    rewrite sort_with_ties.
    + rewrite map_map. cbn [snd]. now rewrite map_id.
    + intros x y Hx Hy. apply in_map_iff in Hx, Hy.
      destruct Hx as (f & <- & Hf), Hy as (g & <- & Hg).
      cbn [fst]. now apply Htie.
  - intros Hnum.
    destruct (painters_algorithm_ok depths facets Hwf)
      as (Hp & _ & Hk & Hwf').
    eexists. split; [exact Hp|].
    rewrite (painters_algorithm_keyed depths _ Hwf').
    rewrite (keyed_again depths _ Hk).
    rewrite sort_with_twice; [reflexivity|].
    now apply keyed_good.
Qed.

Section FixedPointExamples.
Import renderer PrimFloat.
Local Open Scope float_scope.

(** X22 on the cube seen from the front, where the two facets of each
    face lie at the same depth. *)
Lemma painters_algorithm_fixed_points_witness :
  let depths := [9; 9; 9; 9; 11; 11; 11; 11] in
  let facets := renderer.facets (Scene_init WIDTH HEIGHT) in
  exists ordered,
    binary64.painters_algorithm depths facets = Ok ordered /\
    binary64.painters_algorithm depths ordered = Ok ordered.
Proof.
  intros depths facets.
  apply (proj2 (painters_algorithm_fixed_points depths facets eq_refl)).
  vm_compute. reflexivity.
Defined.
End FixedPointExamples.

(** X23.  The sorter returns a result exactly when the first three
    entries of every facet (or all its entries, when it has fewer) are
    integer indices within [-n, n) for [n] depths: a negative index
    counts from the end of the depth list and a facet with fewer than
    three indices is accepted.  Otherwise it raises [IndexError] or
    [TypeError] and returns nothing. *)
Theorem painters_algorithm_accepts :
  forall (depths : list R) (facets : list renderer.facet),
    ((exists ordered, renderer.painters_algorithm depths facets = Ok ordered)
     <-> forallb (sorter.accepted (List.length depths)) facets = true) /\
    (forall e, renderer.painters_algorithm depths facets = Raise e ->
               e = IndexError \/ e = TypeError).
Proof.
  intros depths facets.
  unfold renderer.painters_algorithm, sorted.
  destruct (comprehension_cases _ _ (renderer.avg_depth depths) facets)
    as [[Hall [ks ->]]|(f & e & Hf & Hfe & ->)]; cbn [bind].
  - split; [|intros e [=]].
    split; [|eauto]. intros _. apply forallb_forall. intros f Hf.
    destruct (avg_depth_cases depths f) as [[Ha _]|[_ [He|He]]]; auto;
      destruct (Hall f Hf) as [k Hk]; congruence.
  - destruct (avg_depth_cases depths f) as [[_ [k Hk]]|[Ha He]];
      [congruence|].
    split.
    + split; [intros [o [=]]|]. intros Hacc.
      rewrite forallb_forall in Hacc. specialize (Hacc f Hf). congruence.
    + intros e' [= <-].
      destruct He as [He|He]; rewrite He in Hfe; injection Hfe as <-; auto.
Qed.

(** X23 on a facet of two indices, one of them counted from the end,
    and on a facet that names a vertex that is not there. *)
Lemma painters_algorithm_accepts_witness :
  (exists ordered,
      renderer.painters_algorithm [1; 2; 3]%R
        [[renderer.Idx 0; renderer.Idx (-1)]] = Ok ordered) /\
  ~ (exists ordered,
        renderer.painters_algorithm [1; 2; 3]%R
          [[renderer.Idx 0; renderer.Idx 1; renderer.Idx 3]] = Ok ordered).
Proof.
  split.
  - apply (proj1 (painters_algorithm_accepts [1; 2; 3]%R
                    [[renderer.Idx 0; renderer.Idx (-1)]])).
    reflexivity.
  - intros Hex.
    apply (proj1 (painters_algorithm_accepts [1; 2; 3]%R
                    [[renderer.Idx 0; renderer.Idx 1; renderer.Idx 3]]))
      in Hex.
    discriminate Hex.
Defined.

(* ------------------------------------------------------------------ *)
(** ** Colouring the facets and leaving the loop *)

Section ColourFacts.
Import renderer.

Lemma colorize_from_length (rnd : nat -> Z) (n : nat)
      (F : list objreader.facet) :
  List.length (colorize_from rnd n F) = List.length F.
Proof.
  revert n; induction F as [|f F IH]; intros n; cbn; auto.
Qed.

Lemma colorize_from_nth (rnd : nat -> Z) (n i : nat)
      (F : list objreader.facet) :
  (i < List.length F)%nat ->
  nth i (colorize_from rnd n F) []
  = map Idx (nth i F [])
    ++ [Colour (rnd (n + 3 * i)%nat, rnd (S (n + 3 * i)),
                rnd (S (S (n + 3 * i))))].
Proof.
  revert n i; induction F as [|f F IH]; intros n i Hi;
    cbn [List.length] in Hi; [lia|].
  cbn [colorize_from]. destruct i as [|i].
  - cbn [nth]. now rewrite Nat.mul_0_r, Nat.add_0_r.
  - cbn [nth]. rewrite IH by lia.
    now replace (3 + n + 3 * i)%nat with (n + 3 * S i)%nat by lia.
Qed.

Lemma colorize_from_removelast (rnd : nat -> Z) (n : nat)
      (F : list objreader.facet) :
  map (@removelast item) (colorize_from rnd n F) = map (map Idx) F.
Proof.
  revert n; induction F as [|f F IH]; intros n; auto.
  cbn [colorize_from map]. now rewrite removelast_last, IH.
Qed.

Lemma handle_events_quit (evs1 evs2 : list event) (s : Scene) :
  ~ In QUIT evs1 ->
  handle_events (evs1 ++ QUIT :: evs2) s
  = (fst (handle_events evs1 s), Exited).
Proof.
  revert s; induction evs1 as [|e evs1 IH]; intros s Hq; [reflexivity|].
  cbn [app handle_events].
  assert (He : snd (handle_event e s) = Running).
  { destruct e; auto. contradiction Hq. now left. }
  destruct (handle_event e s) as [s' c]. cbn [snd] in He. subst c.
  apply IH. intros Hin. apply Hq. now right.
Qed.
End ColourFacts.

(** X27.  [colorize_facets] keeps the facets, their order and their
    indices, and appends to each facet one colour made of three
    consecutive random numbers: facet [i] gets the numbers [3i], [3i+1]
    and [3i+2], so no random number is used twice; taking the last
    entry off every facet gives the indices back, and the first three
    entries of a facet with three indices are not touched. *)
Theorem colorize_facets_appends :
  forall (rnd : nat -> Z) (F : list objreader.facet),
    List.length (renderer.colorize_facets rnd F) = List.length F /\
    (forall i, (i < List.length F)%nat ->
               nth i (renderer.colorize_facets rnd F) []
               = map renderer.Idx (nth i F [])
                 ++ [renderer.Colour (rnd (3 * i)%nat, rnd (3 * i + 1)%nat,
                                      rnd (3 * i + 2)%nat)]) /\
    map (@removelast renderer.item) (renderer.colorize_facets rnd F)
    = map (map renderer.Idx) F /\
    (forall i, (3 <= List.length (nth i F []))%nat ->
               firstn 3 (nth i (renderer.colorize_facets rnd F) [])
               = map renderer.Idx (firstn 3 (nth i F []))).
Proof.
  intros rnd F. unfold renderer.colorize_facets.
  assert (Hnth : forall i, (i < List.length F)%nat ->
               nth i (renderer.colorize_from rnd 0 F) []
               = map renderer.Idx (nth i F [])
                 ++ [renderer.Colour (rnd (3 * i)%nat, rnd (3 * i + 1)%nat,
                                      rnd (3 * i + 2)%nat)]).
  { intros i Hi. rewrite colorize_from_nth by exact Hi.
    cbn [Nat.add].
    replace (S (3 * i)) with (3 * i + 1)%nat by lia.
    now replace (S (3 * i + 1)) with (3 * i + 2)%nat by lia. }
  repeat apply conj.
  - apply colorize_from_length.
  - exact Hnth.
  - apply colorize_from_removelast.
  - intros i Hlen.
    assert (Hi : (i < List.length F)%nat).
    { destruct (Nat.lt_ge_cases i (List.length F)) as [Hlt|Hge]; auto.
      rewrite (nth_overflow F [] Hge) in Hlen. cbn in Hlen. lia. }
    rewrite (Hnth i Hi), firstn_app, firstn_map.
    rewrite length_map.
    replace (3 - List.length (nth i F []))%nat with 0%nat by lia.
    cbn [firstn]. now rewrite app_nil_r.
Qed.

(** X27 on the facets of the cube. *)
Lemma colorize_facets_appends_witness :
  nth 2 (renderer.colorize_facets (fun n => Z.of_nat n) spec.cube_facets) []
  = map renderer.Idx (nth 2 spec.cube_facets [])
    ++ [renderer.Colour (Z.of_nat (3 * 2), Z.of_nat (3 * 2 + 1),
                         Z.of_nat (3 * 2 + 2))].
Proof.
  apply (proj1 (proj2 (colorize_facets_appends (fun n => Z.of_nat n)
                         spec.cube_facets)) 2%nat).
  cbn. lia.
Defined.

(** X28.  A quit event ends [main] at once: the events before it in the
    batch are handled, those after it are not, no frame is rendered or
    counted for that batch, and the inputs that follow are never
    read. *)
Theorem quit_ends_main :
  forall (before after : list renderer.event) (t : Q)
         (rest : list (list renderer.event * Q))
         (s : renderer.Scene) (g : renderer.Globals),
    ~ In renderer.QUIT before ->
    renderer.main_loop ((before ++ renderer.QUIT :: after, t) :: rest) (s, g)
    = ((fst (renderer.handle_events before s), g), Ok renderer.Exited).
Proof.
  intros before after t rest s g Hq.
  cbn [renderer.main_loop fst snd].
  now rewrite (handle_events_quit before after s Hq).
Qed.

(** X28 for a key press, a quit event and a wheel notch in one batch. *)
Lemma quit_ends_main_witness :
  renderer.main_loop
    (([renderer.KEYDOWN renderer.K_f] ++
      renderer.QUIT :: [renderer.MOUSEBUTTONDOWN 4], 1 # 100)
       :: [([renderer.KEYDOWN renderer.K_r], 1 # 100)])
    (renderer.Scene_init renderer.WIDTH renderer.HEIGHT, renderer.globals0)
  = ((fst (renderer.handle_events [renderer.KEYDOWN renderer.K_f]
             (renderer.Scene_init renderer.WIDTH renderer.HEIGHT)),
      renderer.globals0), Ok renderer.Exited).
Proof.
  apply quit_ends_main. intros [H|[]]. discriminate H.
Defined.
